(** * Geometry, validation and profile sampling of cue designs

    Shallow embedding of [backend/cues/geometry/core.py],
    [backend/cues/geometry/validators.py], [backend/cues/geometry/operations.py]
    and the [profile_data] view of [cues/api/views.py].

    Python floats are modelled by exact rationals [Q]; the module [Binary64]
    re-runs the interpolation of [radius_at_position] on the kernel's IEEE
    binary64 numbers ([PrimFloat]) where rounding matters.  Python exceptions
    are the constructors of [exn]; a fallible computation returns [result]. *)

From Stdlib Require Import QArith Qround Qabs Qminmax.
From Stdlib Require Import List Sorting.Sorted Sorting.Permutation.
From Stdlib Require Import String Bool ZArith Lia Lqa Floats.
Import ListNotations.

(** ** Exceptions and results *)

Inductive exn : Type :=
| ValueError
| ZeroDivisionError
| NameError
| KeyError
| TypeError
| AttributeError.

Inductive result (A : Type) : Type :=
| Ok : A -> result A
| Err : exn -> result A.
Arguments Ok {A} _.
Arguments Err {A} _.

Definition bind {A B : Type} (m : result A) (k : A -> result B) : result B :=
  match m with
  | Ok a => k a
  | Err e => Err e
  end.

Notation "x <- m ;; k" := (bind m (fun x => k))
  (at level 61, m at next level, right associativity).

Local Open Scope Q_scope.

(** ** core.py : [Point3D], [CueSectionGeometry] *)

Record Point3D : Type := mkPoint3D {
  x : Q;        (* axial position, inches *)
  r : Q;        (* radial distance, mm *)
  theta : Q     (* rotational angle, degrees *)
}.

Record CueSectionGeometry : Type := mkSection {
  section_type : string;
  start : Point3D;
  end_ : Point3D   (* [end] in the source; a keyword in Rocq *)
}.

Definition length (s : CueSectionGeometry) : Q := x (end_ s) - x (start s).
Definition start_radius (s : CueSectionGeometry) : Q := r (start s).
Definition end_radius (s : CueSectionGeometry) : Q := r (end_ s).

(** [if self.length == 0: return 0.0] guards both derived slopes. *)
Definition taper_rate (s : CueSectionGeometry) : Q :=
  if Qeq_bool (length s) 0 then 0
  else (end_radius s - start_radius s) / length s.

(** [radius_at_position]: the range check raises [ValueError]; the division by
    a zero [length] raises [ZeroDivisionError] in Python. *)
Definition section_radius_at_position (s : CueSectionGeometry) (x_position : Q)
  : result Q :=
  if Qlt_le_dec x_position (x (start s)) then Err ValueError
  else if Qlt_le_dec (x (end_ s)) x_position then Err ValueError
  else if Qeq_bool (length s) 0 then Err ZeroDivisionError
  else
    let t := (x_position - x (start s)) / length s in
    Ok (start_radius s + t * (end_radius s - start_radius s)).

(** ** core.py : [CueDesignGeometry] *)

(** Python's [sorted(xs, key=key)]: a stable sort.  Inserting the earlier
    element in front of every element whose key is at least as large keeps
    elements with equal keys in input order. *)
Section SortBy.
Context {A K : Type} (leb : K -> K -> bool) (key : A -> K).

Fixpoint insert_by (a : A) (l : list A) : list A :=
  match l with
  | [] => [a]
  | b :: l' => if leb (key a) (key b) then a :: b :: l' else b :: insert_by a l'
  end.

Fixpoint sort_by (l : list A) : list A :=
  match l with
  | [] => []
  | a :: l' => insert_by a (sort_by l')
  end.
End SortBy.

Definition sort_by_start (l : list CueSectionGeometry) : list CueSectionGeometry :=
  sort_by Qle_bool (fun s => x (start s)) l.

Record CueDesignGeometry : Type := mkDesignRaw {
  sections : list CueSectionGeometry
}.

(** [CueDesignGeometry.__init__] *)
Definition make_design (l : list CueSectionGeometry) : CueDesignGeometry :=
  {| sections := sort_by_start l |}.

Definition total_length (d : CueDesignGeometry) : Q :=
  match sections d with
  | [] => 0
  | first :: _ => x (end_ (last (sections d) first)) - x (start first)
  end.

Definition contains (s : CueSectionGeometry) (x_position : Q) : bool :=
  Qle_bool (x (start s)) x_position && Qle_bool x_position (x (end_ s)).

Fixpoint first_containing (l : list CueSectionGeometry) (x_position : Q)
  : option CueSectionGeometry :=
  match l with
  | [] => None
  | s :: l' => if contains s x_position then Some s else first_containing l' x_position
  end.

Definition get_section_at_position (d : CueDesignGeometry) (x_position : Q)
  : option CueSectionGeometry :=
  first_containing (sections d) x_position.

Definition radius_at_position (d : CueDesignGeometry) (x_position : Q) : result Q :=
  match get_section_at_position d x_position with
  | Some s => section_radius_at_position s x_position
  | None => Err ValueError
  end.

(** [validate_continuity]: per adjacent pair of the sorted sections, a gap
    issue and then a radius-jump issue. *)
Inductive continuity_issue : Type :=
| Gap (prev next : string)
| LargeRadiusJump (prev next : string).

Definition gap_tolerance : Q := 1 # 1000.        (* 0.001 in *)
Definition radius_jump_tolerance : Q := 1 # 10.   (* 0.1 mm *)

Definition pair_continuity_issues (current next_section : CueSectionGeometry)
  : list continuity_issue :=
  (if Qlt_le_dec gap_tolerance (Qabs (x (end_ current) - x (start next_section)))
   then [Gap (section_type current) (section_type next_section)] else [])
  ++
  (if Qlt_le_dec radius_jump_tolerance
        (Qabs (end_radius current - start_radius next_section))
   then [LargeRadiusJump (section_type current) (section_type next_section)] else []).

(** The [for i in range(len(self.sections) - 1)] loop. *)
Fixpoint continuity_loop (l : list CueSectionGeometry) : list continuity_issue :=
  match l with
  | current :: ((next_section :: _) as l') =>
      pair_continuity_issues current next_section ++ continuity_loop l'
  | _ => []
  end.

Definition validate_continuity (d : CueDesignGeometry) : list continuity_issue :=
  if Nat.ltb (List.length (sections d)) 2 then []
  else continuity_loop (sections d).

(** Adjacent pairs of a list, as [zip(l, l[1:])]. *)
Fixpoint adjacent_pairs {A : Type} (l : list A) : list (A * A) :=
  match l with
  | a :: ((b :: _) as l') => (a, b) :: adjacent_pairs l'
  | _ => []
  end.

(** [validate_manufacturing_constraints] needs [taper_angle_degrees], i.e.
    [math.degrees(math.atan(taper_rate / 25.4))]; the composite
    [math.degrees . math.atan] is a parameter [atan_degrees] of this part. *)
Inductive manufacturing_issue : Type :=
| TaperTooSteep (ty : string) (angle : Q)
| RadiusTooSmall (ty : string) (min_radius : Q)
| RadiusTooLarge (ty : string) (max_radius : Q).

Section Manufacturing.
Variable atan_degrees : Q -> Q.

Definition taper_angle_degrees (s : CueSectionGeometry) : Q :=
  if Qeq_bool (length s) 0 then 0
  else atan_degrees (taper_rate s / (254 # 10)).

Definition section_manufacturing_issues (s : CueSectionGeometry)
  : list manufacturing_issue :=
  let angle := taper_angle_degrees s in
  let min_radius := Qmin (start_radius s) (end_radius s) in
  let max_radius := Qmax (start_radius s) (end_radius s) in
  (if Qlt_le_dec 5 (Qabs angle) then [TaperTooSteep (section_type s) angle] else [])
  ++ (if Qlt_le_dec min_radius 5 then [RadiusTooSmall (section_type s) min_radius] else [])
  ++ (if Qlt_le_dec 25 max_radius then [RadiusTooLarge (section_type s) max_radius] else []).

Definition validate_manufacturing_constraints (d : CueDesignGeometry)
  : list manufacturing_issue :=
  flat_map section_manufacturing_issues (sections d).
End Manufacturing.

(** ** validators.py : [CueGeometryValidator] *)

(** A section record as the validators receive it: a dict whose keys may be
    absent ([None]). *)
Record SectionData : Type := mkSectionData {
  sd_section_type : option string;
  sd_start_position_in : option Q;
  sd_end_position_in : option Q;
  sd_outer_diameter_start_mm : option Q;
  sd_outer_diameter_end_mm : option Q
}.

(** [d[k]]: a missing key raises [KeyError]. *)
Definition subscript {A : Type} (v : option A) : result A :=
  match v with Some a => Ok a | None => Err KeyError end.

(** [d.get(k, 0)] *)
Definition get_or_zero (v : option Q) : Q :=
  match v with Some q => q | None => 0 end.

Fixpoint traverse {A B : Type} (f : A -> result B) (l : list A) : result (list B) :=
  match l with
  | [] => Ok []
  | a :: l' => b <- f a;; bs <- traverse f l';; Ok (b :: bs)
  end.

Definition VALID_SEQUENCE : list string :=
  ["joint"; "forearm"; "handle"; "sleeve"; "butt"]%string.

Inductive sequence_issue : Type :=
| SequenceMismatch (index : nat) (expected actual : string).
(* rendered as "Section {index + 1} should be '{expected}' but found '{actual}'" *)

(** [for i, expected_type in enumerate(VALID_SEQUENCE)], with the [break]
    once [i >= len(section_types)]. *)
Fixpoint sequence_loop (i : nat) (expected : list string) (section_types : list string)
  : list sequence_issue :=
  match expected with
  | [] => []
  | expected_type :: rest =>
      match nth_error section_types i with
      | None => []
      | Some actual_type =>
          (if String.eqb actual_type expected_type then []
           else [SequenceMismatch i expected_type actual_type])
          ++ sequence_loop (S i) rest section_types
      end
  end.

(** [sorted(sections_data, key=lambda s: s["start_position_in"])] computes
    every key first, then sorts stably. *)
Definition validate_section_sequence (sections_data : list SectionData)
  : result (list sequence_issue) :=
  match sections_data with
  | [] => Ok []
  | _ =>
      keyed <- traverse (fun s => k <- subscript (sd_start_position_in s);; Ok (k, s))
                        sections_data;;
      let sorted_sections := map snd (sort_by Qle_bool fst keyed) in
      section_types <- traverse (fun s => subscript (sd_section_type s)) sorted_sections;;
      Ok (sequence_loop 0 VALID_SEQUENCE section_types)
  end.

Record SectionConstraints : Type := mkConstraints {
  min_length_in : Q;
  max_length_in : Q;
  min_diameter_mm : Q;
  max_diameter_mm : Q
}.

(** The class attribute [CueGeometryValidator.SECTION_CONSTRAINTS]. *)
Definition CueGeometryValidator_SECTION_CONSTRAINTS : list (string * SectionConstraints) :=
  [("joint", mkConstraints (1 # 2) 2 18 25);
   ("forearm", mkConstraints 8 14 19 24);
   ("handle", mkConstraints 8 12 20 26);
   ("sleeve", mkConstraints 4 8 24 32);
   ("butt", mkConstraints 2 6 26 32)]%string.

Fixpoint assoc {A : Type} (k : string) (l : list (string * A)) : option A :=
  match l with
  | [] => None
  | (k', a) :: l' => if String.eqb k k' then Some a else assoc k l'
  end.

(** The values bound in a module's global namespace, as far as the
    validators need them. *)
Inductive py_global : Type :=
| GImported (qualified_name : string)
| GClass (name : string)
| GConstraintTable (table : list (string * SectionConstraints)).

(** The global namespace of [validators.py]: its imports and its two classes.
    [SECTION_CONSTRAINTS] is bound in the body of [CueGeometryValidator]
    only, which is not a scope of the methods; the builtins do not bind it
    either. *)
Definition validators_module_globals : list (string * py_global) :=
  [("ValidationError", GImported "django.core.exceptions.ValidationError");
   ("List", GImported "typing.List");
   ("Dict", GImported "typing.Dict");
   ("Any", GImported "typing.Any");
   ("CueSectionGeometry", GImported "cues.geometry.core.CueSectionGeometry");
   ("CueDesignGeometry", GImported "cues.geometry.core.CueDesignGeometry");
   ("CueGeometryValidator", GClass "CueGeometryValidator");
   ("InlayPatternValidator", GClass "InlayPatternValidator")]%string.

Inductive constraint_issue : Type :=
| TooShort (ty : string) (len : Q)
| TooLong (ty : string) (len : Q)
| DiameterTooSmall (ty label : string) (diameter : Q)
| DiameterTooLarge (ty label : string) (diameter : Q).

(** Body of [validate_section_constraints] once the table is found. *)
Definition constraint_checks (section_type : string) (constraints : SectionConstraints)
  (section_data : SectionData) : list constraint_issue :=
  let len := get_or_zero (sd_end_position_in section_data)
             - get_or_zero (sd_start_position_in section_data) in
  let start_diameter := get_or_zero (sd_outer_diameter_start_mm section_data) in
  let end_diameter := get_or_zero (sd_outer_diameter_end_mm section_data) in
  (if Qlt_le_dec len (min_length_in constraints) then [TooShort section_type len] else [])
  ++ (if Qlt_le_dec (max_length_in constraints) len then [TooLong section_type len] else [])
  ++ flat_map (fun '(diameter, label) =>
        (if Qlt_le_dec diameter (min_diameter_mm constraints)
         then [DiameterTooSmall section_type label diameter] else [])
        ++ (if Qlt_le_dec (max_diameter_mm constraints) diameter
            then [DiameterTooLarge section_type label diameter] else []))
       [(start_diameter, "Start"); (end_diameter, "End")]%string.

(** [validate_section_constraints], resolving the bare name
    [SECTION_CONSTRAINTS] in the module globals [globals]: an unbound name
    raises [NameError]; [None] (no [section_type]) is never a key. *)
Definition validate_section_constraints (globals : list (string * py_global))
  (section_data : SectionData) : result (list constraint_issue) :=
  match assoc "SECTION_CONSTRAINTS"%string globals with
  | None => Err NameError
  | Some (GConstraintTable table) =>
      match sd_section_type section_data with
      | None => Ok []
      | Some section_type =>
          match assoc section_type table with
          | None => Ok []
          | Some constraints => Ok (constraint_checks section_type constraints section_data)
          end
      end
  | Some _ => Err TypeError
  end.

(** ** validators.py : [InlayPatternValidator] *)

Local Set Warnings "-register-all".

(** Python values of a JSON-like record; dicts have string keys. *)
Inductive PyVal : Type :=
| PNone
| PBool (b : bool)
| PInt (z : Z)
| PFloat (q : Q)
| PStr (s : string)
| PList (l : list PyVal)
| PDict (kv : list (string * PyVal)).

Definition PyDict : Type := list (string * PyVal).

(** [k in d] and [d.get(k)] *)
Definition dict_in (k : string) (d : PyDict) : bool :=
  match assoc k d with Some _ => true | None => false end.
Definition dict_get (k : string) (d : PyDict) : PyVal :=
  match assoc k d with Some v => v | None => PNone end.

Definition truthy (v : PyVal) : bool :=
  match v with
  | PNone => false
  | PBool b => b
  | PInt z => negb (Z.eqb z 0)
  | PFloat q => negb (Qeq_bool q 0)
  | PStr s => negb (String.eqb s "")
  | PList l => match l with [] => false | _ => true end
  | PDict kv => match kv with [] => false | _ => true end
  end.

(** [v in xs] for a list of strings: only a [str] equals a [str]. *)
Definition in_str_list (v : PyVal) (xs : list string) : bool :=
  match v with PStr s => existsb (String.eqb s) xs | _ => false end.

Definition is_dict (v : PyVal) : bool :=
  match v with PDict _ => true | _ => false end.

Definition VALID_CATEGORIES : list string :=
  ["boxed"; "slash"; "dot"; "wrap"; "inlay"]%string.
Definition VALID_STYLES : list string :=
  ["window_box"; "raised_box"; "recessed_box"; "single_slash"; "double_slash";
   "cross_slash"; "single_dot"; "double_dot"; "cluster_dot"; "full_wrap";
   "partial_wrap"; "spiral_wrap"; "surface_inlay"; "pocket_inlay"; "inlay_ring"]%string.
Definition VALID_MATERIALS : list string :=
  ["ebony"; "maple"; "rosewood"; "cocobolo"; "ivory"; "abalone";
   "mother_of_pearl"; "turquoise"; "silver"; "gold"; "brass"]%string.

Inductive inlay_issue : Type :=
| MissingRequiredField (field : string)
| InvalidPatternCategory (v : PyVal)
| InvalidPatternStyle (v : PyVal)
| InvalidRepeatCount (v : PyVal)
| InvalidGeometryType (v : PyVal)
| DimensionsNotObject
| OrientationNotObject
| PositioningNotObject
| MissingMaterialField (field : string)
| InvalidBaseMaterial (v : PyVal)
| InvalidInlayMaterial (v : PyVal)
| InvalidContrastLevel (v : PyVal)
| InvalidFinishType (v : PyVal).

(** [x.get(...)] on a value that is not a dict raises [AttributeError]. *)
Definition as_dict (v : PyVal) : result PyDict :=
  match v with PDict kv => Ok kv | _ => Err AttributeError end.

Definition check_if (b : bool) (i : inlay_issue) : list inlay_issue :=
  if b then [i] else [].

Definition validate_geometric_definition (geom_def : PyVal) : result (list inlay_issue) :=
  g <- as_dict geom_def;;
  let geometry_type := dict_get "geometry_type" g in
  let dimensions := dict_get "dimensions_mm" g in
  let orientation := dict_get "orientation" g in
  let positioning := dict_get "positioning" g in
  Ok (check_if (negb (in_str_list geometry_type
                        ["rectangular_prism"; "cylinder"; "sphere"; "custom"]%string))
               (InvalidGeometryType geometry_type)
      ++ check_if (truthy dimensions && negb (is_dict dimensions)) DimensionsNotObject
      ++ check_if (truthy orientation && negb (is_dict orientation)) OrientationNotObject
      ++ check_if (truthy positioning && negb (is_dict positioning)) PositioningNotObject).

Definition validate_material_assignment (material_assign : PyVal)
  : result (list inlay_issue) :=
  m <- as_dict material_assign;;
  let base_material := dict_get "base_material" m in
  let inlay_material := dict_get "inlay_material" m in
  let contrast_level := dict_get "contrast_level" m in
  let finish_type := dict_get "finish_type" m in
  Ok (flat_map (fun field => check_if (negb (dict_in field m)) (MissingMaterialField field))
               ["base_material"; "inlay_material"]%string
      ++ check_if (truthy base_material && negb (in_str_list base_material VALID_MATERIALS))
                  (InvalidBaseMaterial base_material)
      ++ check_if (truthy inlay_material && negb (in_str_list inlay_material VALID_MATERIALS))
                  (InvalidInlayMaterial inlay_material)
      ++ check_if (truthy contrast_level
                   && negb (in_str_list contrast_level ["low"; "medium"; "high"]%string))
                  (InvalidContrastLevel contrast_level)
      ++ check_if (truthy finish_type
                   && negb (in_str_list finish_type ["matte"; "satin"; "high_gloss"]%string))
                  (InvalidFinishType finish_type)).

(** [isinstance(v, int)] holds for [bool] too; [True]/[False] compare as 1/0. *)
Definition repeat_count_invalid (v : PyVal) : bool :=
  match v with
  | PInt z => Z.ltb z 1 || Z.ltb 24 z
  | PBool b => negb b
  | _ => true
  end.

Definition validate_pattern (pattern_data : PyDict) : result (list inlay_issue) :=
  let required := flat_map (fun field =>
                     check_if (negb (dict_in field pattern_data)) (MissingRequiredField field))
                   ["pattern_id"; "pattern_category"; "pattern_style"]%string in
  let category := dict_get "pattern_category" pattern_data in
  let style := dict_get "pattern_style" pattern_data in
  let repeat_count := if dict_in "repeat_count" pattern_data
                      then dict_get "repeat_count" pattern_data else PInt 1 in
  let geom_def := dict_get "geometric_definition" pattern_data in
  let material_assign := dict_get "material_assignment" pattern_data in
  geom_issues <- (if truthy geom_def then validate_geometric_definition geom_def else Ok []);;
  material_issues <- (if truthy material_assign
                      then validate_material_assignment material_assign else Ok []);;
  Ok (required
      ++ check_if (truthy category && negb (in_str_list category VALID_CATEGORIES))
                  (InvalidPatternCategory category)
      ++ check_if (truthy style && negb (in_str_list style VALID_STYLES))
                  (InvalidPatternStyle style)
      ++ check_if (repeat_count_invalid repeat_count) (InvalidRepeatCount repeat_count)
      ++ geom_issues ++ material_issues).

(** ** operations.py : [GeometryOperations] *)

(** [math.pi], the binary64 value 884279719003555 / 2^48. *)
Definition math_pi : Q := 884279719003555 # 281474976710656.

Definition surface_area (s : CueSectionGeometry) : Q :=
  let avg_radius_mm := (start_radius s + end_radius s) / 2 in
  let avg_radius_in := avg_radius_mm / (254 # 10) in
  let circumference := 2 * math_pi * avg_radius_in in
  circumference * length s.

Definition volume (s : CueSectionGeometry) : Q :=
  let r1_in := start_radius s / (254 # 10) in
  let r2_in := end_radius s / (254 # 10) in
  let h := length s in
  (1 # 3) * math_pi * h * (r1_in * r1_in + r1_in * r2_in + r2_in * r2_in).

Definition calculate_surface_area (d : CueDesignGeometry) : Q :=
  fold_left (fun total_area s => total_area + surface_area s) (sections d) 0.

Definition calculate_volume (d : CueDesignGeometry) : Q :=
  fold_left (fun total_volume s => total_volume + volume s) (sections d) 0.

(** Python's [max] and [min] over an iterable: [ValueError] when empty. *)
Definition py_max (l : list Q) : result Q :=
  match l with [] => Err ValueError | q :: l' => Ok (fold_left Qmax l' q) end.
Definition py_min (l : list Q) : result Q :=
  match l with [] => Err ValueError | q :: l' => Ok (fold_left Qmin l' q) end.

(** Float division [a / b]: [ZeroDivisionError] when [b == 0]. *)
Definition py_div (a b : Q) : result Q :=
  if Qeq_bool b 0 then Err ZeroDivisionError else Ok (a / b).

Record CenterOfMass : Type := mkCenterOfMass { com_x : Q; com_y : Q; com_z : Q }.

Definition calculate_center_of_mass (d : CueDesignGeometry) : CenterOfMass :=
  let '(total_volume, weighted_x) :=
    fold_left (fun '(tv, wx) s =>
                 let v := volume s in
                 (tv + v, wx + v * ((x (start s) + x (end_ s)) / 2)))
              (sections d) (0, 0) in
  if Qlt_le_dec 0 total_volume then mkCenterOfMass (weighted_x / total_volume) 0 0
  else mkCenterOfMass 0 0 0.

Record MomentOfInertia : Type := mkMoment { I_axial : Q; I_perpendicular : Q }.

Definition calculate_moment_of_inertia (d : CueDesignGeometry) : result MomentOfInertia :=
  let total_volume := calculate_volume d in
  max_radius <- py_max (map (fun s => Qmax (start_radius s) (end_radius s)) (sections d));;
  let mass := total_volume * (12 # 10) in
  let r_in := max_radius / (254 # 10) in
  Ok (mkMoment ((1 # 2) * mass * (r_in * r_in))
               ((1 # 12) * mass * (3 * (r_in * r_in) + total_length d * total_length d))).

Record GeometricProperties : Type := mkProperties {
  gp_total_length : Q;
  gp_total_surface_area : Q;
  gp_total_volume : Q;
  gp_center_of_mass : CenterOfMass;
  gp_moment_of_inertia : MomentOfInertia;
  gp_sections_count : nat;
  gp_max_radius : Q;
  gp_min_radius : Q;
  gp_average_radius : Q
}.

(** The dict literal of [calculate_geometric_properties], its entries
    evaluated in order. *)
Definition calculate_geometric_properties (d : CueDesignGeometry)
  : result GeometricProperties :=
  let tl := total_length d in
  let sa := calculate_surface_area d in
  let vol := calculate_volume d in
  let com := calculate_center_of_mass d in
  moi <- calculate_moment_of_inertia d;;
  let count := List.length (sections d) in
  max_radius <- py_max (map (fun s => Qmax (start_radius s) (end_radius s)) (sections d));;
  min_radius <- py_min (map (fun s => Qmin (start_radius s) (end_radius s)) (sections d));;
  average_radius <- py_div (fold_left Qplus
                              (map (fun s => (start_radius s + end_radius s) / 2) (sections d)) 0)
                           (inject_Z (Z.of_nat count));;
  Ok (mkProperties tl sa vol com moi count max_radius min_radius average_radius).

(** ** cues/api/views.py : [profile_data] *)

(** [int(q)] truncates toward zero. *)
Definition py_int (q : Q) : Z := Z.quot (Qnum q) (Zpos (Qden q)).

(** [range(n)] *)
Definition py_range (n : Z) : list Z := map Z.of_nat (seq 0 (Z.to_nat n)).

Record ProfilePoint : Type := mkProfilePoint { pp_x : Q; pp_radius : Q; pp_diameter : Q }.

(** [x = i / 10] *)
Definition sample_position (i : Z) : Q := inject_Z i / 10.

(** The sampling loop: a [ValueError] skips the sample ([continue]); any other
    exception leaves the view. *)
Fixpoint profile_loop (d : CueDesignGeometry) (is : list Z) : result (list ProfilePoint) :=
  match is with
  | [] => Ok []
  | i :: is' =>
      let xq := sample_position i in
      match radius_at_position d xq with
      | Ok radius =>
          rest <- profile_loop d is';;
          Ok (mkProfilePoint xq radius (radius * 2) :: rest)
      | Err ValueError => profile_loop d is'
      | Err e => Err e
      end
  end.

Definition profile_points (d : CueDesignGeometry) : result (list ProfilePoint) :=
  profile_loop d (py_range (py_int (total_length d * 10) + 1)).

(** ** The interpolation on binary64 numbers

    Python floats are IEEE binary64 numbers with round-to-nearest, as the
    kernel's [PrimFloat]. *)
Module Binary64.
Local Open Scope float_scope.

Record Point3D : Type := mkPoint3D { x : float; r : float }.

Record CueSectionGeometry : Type := mkSection {
  section_type : string;
  start : Point3D;
  end_ : Point3D
}.

Definition length (s : CueSectionGeometry) : float := x (end_ s) - x (start s).
Definition start_radius (s : CueSectionGeometry) : float := r (start s).
Definition end_radius (s : CueSectionGeometry) : float := r (end_ s).

Definition section_radius_at_position (s : CueSectionGeometry) (x_position : float)
  : result float :=
  if (x_position <? x (start s)) || (x (end_ s) <? x_position) then Err ValueError
  else if length s =? 0 then Err ZeroDivisionError
  else
    let t := (x_position - x (start s)) / length s in
    Ok (start_radius s + t * (end_radius s - start_radius s)).

Definition make_design (l : list CueSectionGeometry) : list CueSectionGeometry :=
  sort_by PrimFloat.leb (fun s => x (start s)) l.

Fixpoint get_section_at_position (sections : list CueSectionGeometry) (x_position : float)
  : option CueSectionGeometry :=
  match sections with
  | [] => None
  | s :: l' =>
      if (x (start s) <=? x_position) && (x_position <=? x (end_ s)) then Some s
      else get_section_at_position l' x_position
  end.

Definition radius_at_position (sections : list CueSectionGeometry) (x_position : float)
  : result float :=
  match get_section_at_position sections x_position with
  | Some s => section_radius_at_position s x_position
  | None => Err ValueError
  end.
End Binary64.

(** ** Further parts of core.py, validators.py and operations.py *)

(** Strict comparison as a boolean, as Python's [a < b]. *)
Definition qlt (a b : Q) : bool := if Qlt_le_dec a b then true else false.

(** [CueDesignGeometry.sections_by_type]: a dict in insertion order, each
    type mapped to its sections in design order. *)
Fixpoint add_to_group (ty : string) (s : CueSectionGeometry)
  (groups : list (string * list CueSectionGeometry)) : list (string * list CueSectionGeometry) :=
  match groups with
  | [] => [(ty, [s])]
  | (k, ss) :: groups' =>
      if String.eqb ty k then (k, ss ++ [s]) :: groups'
      else (k, ss) :: add_to_group ty s groups'
  end.

Definition sections_by_type (d : CueDesignGeometry) : list (string * list CueSectionGeometry) :=
  fold_left (fun result s => add_to_group (section_type s) s result) (sections d) [].

(** [GeometryOperations.calculate_centerline]: the coordinates handed to
    [LineString]; a point equal to the previous raw point is dropped. *)
Definition centerline_points (d : CueDesignGeometry) : list (Q * Q) :=
  flat_map (fun s => [(x (start s), 0); (x (end_ s), 0)]) (sections d).

Definition point_eqb (p q : Q * Q) : bool := Qeq_bool (fst p) (fst q) && Qeq_bool (snd p) (snd q).

Fixpoint dedupe_from (prev : Q * Q) (l : list (Q * Q)) : list (Q * Q) :=
  match l with
  | [] => []
  | p :: l' => (if point_eqb p prev then [] else [p]) ++ dedupe_from p l'
  end.

Definition calculate_centerline (d : CueDesignGeometry) : list (Q * Q) :=
  match centerline_points d with
  | [] => []
  | p :: l => p :: dedupe_from p l
  end.

(** operations.py : [ManufacturingTolerances] *)
Definition DIAMETER_TOLERANCE : Q := 5 # 100.

Inductive tolerance_issue : Type :=
| ExcessiveTaper (section : string) (value : Q)
| AbruptDiameterChange (from to : string) (value : Q).

Definition section_diameter_tolerance (s : CueSectionGeometry) : list tolerance_issue :=
  let diameter_change := Qabs (end_radius s - start_radius s) * 2 in
  if qlt 0 (length s) then
    let taper_per_inch := diameter_change / length s in
    if qlt 1 taper_per_inch then [ExcessiveTaper (section_type s) taper_per_inch] else []
  else [].

Definition check_diameter_tolerance (d : CueDesignGeometry) : list tolerance_issue :=
  flat_map section_diameter_tolerance (sections d).

Definition transition_issues (current next_section : CueSectionGeometry)
  : list tolerance_issue :=
  let diameter_diff := Qabs (end_radius current * 2 - start_radius next_section * 2) in
  if qlt (DIAMETER_TOLERANCE * 2) diameter_diff
  then [AbruptDiameterChange (section_type current) (section_type next_section) diameter_diff]
  else [].

(** The [for i in range(len(sections) - 1)] loop over adjacent pairs. *)
Definition check_transition_smoothness (d : CueDesignGeometry) : list tolerance_issue :=
  if Nat.ltb (List.length (sections d)) 2 then []
  else flat_map (fun p => transition_issues (fst p) (snd p)) (adjacent_pairs (sections d)).

(** validators.py : [CueGeometryValidator.validate_section] *)
Inductive section_issue : Type :=
| StartNotBeforeEnd
| StartNegative
| DiametersNotPositive
| DiametersTooLarge
| TaperRateTooSteep (taper_rate : Q).

Definition validate_section (section_data : SectionData) : list section_issue :=
  let start_pos := get_or_zero (sd_start_position_in section_data) in
  let end_pos := get_or_zero (sd_end_position_in section_data) in
  let start_diameter := get_or_zero (sd_outer_diameter_start_mm section_data) in
  let end_diameter := get_or_zero (sd_outer_diameter_end_mm section_data) in
  let len := end_pos - start_pos in
  (if qlt start_pos end_pos then [] else [StartNotBeforeEnd])
  ++ (if qlt start_pos 0 then [StartNegative] else [])
  ++ (if negb (qlt 0 start_diameter) || negb (qlt 0 end_diameter)
      then [DiametersNotPositive] else [])
  ++ (if qlt 50 start_diameter || qlt 50 end_diameter then [DiametersTooLarge] else [])
  ++ (if qlt 0 len then
        let taper_rate := (end_diameter - start_diameter) / len in
        if qlt 2 (Qabs taper_rate) then [TaperRateTooSteep taper_rate] else []
      else []).

(** validators.py : [CueGeometryValidator.validate_sections_continuity] *)
Inductive record_continuity_issue : Type :=
| RecordGap (gap : Q) (a b : string)
| RecordOverlap (a b : string)
| RecordDiameterJump (diameter_diff : Q).

(** [s.get("section_type", "section")] *)
Definition type_or_section (s : SectionData) : string :=
  match sd_section_type s with Some t => t | None => "section"%string end.

Definition record_pair_issues (current next_section : SectionData)
  : result (list record_continuity_issue) :=
  next_start <- subscript (sd_start_position_in next_section);;
  current_end <- subscript (sd_end_position_in current);;
  let gap := next_start - current_end in
  current_diameter <- subscript (sd_outer_diameter_end_mm current);;
  next_diameter <- subscript (sd_outer_diameter_start_mm next_section);;
  let diameter_diff := Qabs (current_diameter - next_diameter) in
  Ok ((if qlt (1 # 100) gap
       then [RecordGap gap (type_or_section current) (type_or_section next_section)] else [])
      ++ (if qlt gap 0
          then [RecordOverlap (type_or_section current) (type_or_section next_section)] else [])
      ++ (if qlt 1 diameter_diff then [RecordDiameterJump diameter_diff] else [])).

Definition validate_sections_continuity (sections_data : list SectionData)
  : result (list record_continuity_issue) :=
  if Nat.ltb (List.length sections_data) 2 then Ok []
  else
    keyed <- traverse (fun s => k <- subscript (sd_start_position_in s);; Ok (k, s))
                      sections_data;;
    let sorted_sections := map snd (sort_by Qle_bool fst keyed) in
    per_pair <- traverse (fun p => record_pair_issues (fst p) (snd p))
                         (adjacent_pairs sorted_sections);;
    Ok (List.concat per_pair).

(** validators.py : [CueGeometryValidator.validate_manufacturing_constraints],
    the design-level variant with length, total-length and duplicate checks.
    The duplicate issue carries [[t for t in section_types if count(t) > 1]];
    the source renders it through [set(...)]. *)
Inductive design_issue : Type :=
| DTaperTooSteep (ty : string) (angle : Q)
| DRadiusTooSmall (ty : string) (min_radius : Q)
| DRadiusTooLarge (ty : string) (max_radius : Q)
| DTooShort (ty : string) (len : Q)
| DTooLong (ty : string) (len : Q)
| DTotalTooLong (total : Q)
| DDuplicateSectionTypes (duplicates : list string).

Section ValidatorManufacturing.
Variable atan_degrees : Q -> Q.

Definition validator_section_issues (s : CueSectionGeometry) : list design_issue :=
  let angle := taper_angle_degrees atan_degrees s in
  let min_radius := Qmin (start_radius s) (end_radius s) in
  let max_radius := Qmax (start_radius s) (end_radius s) in
  (if qlt 5 (Qabs angle) then [DTaperTooSteep (section_type s) angle] else [])
  ++ (if qlt min_radius 5 then [DRadiusTooSmall (section_type s) min_radius] else [])
  ++ (if qlt 25 max_radius then [DRadiusTooLarge (section_type s) max_radius] else [])
  ++ (if qlt (length s) 2 then [DTooShort (section_type s) (length s)] else [])
  ++ (if qlt 20 (length s) then [DTooLong (section_type s) (length s)] else []).

Definition CueGeometryValidator_validate_manufacturing_constraints (d : CueDesignGeometry)
  : list design_issue :=
  let section_types := map section_type (sections d) in
  flat_map validator_section_issues (sections d)
  ++ (if qlt 40 (total_length d) then [DTotalTooLong (total_length d)] else [])
  ++ (if Nat.eqb (List.length section_types)
                 (List.length (nodup string_dec section_types)) then []
      else [DDuplicateSectionTypes
              (filter (fun t => Nat.ltb 1 (count_occ string_dec section_types t))
                      section_types)]).
End ValidatorManufacturing.

(** * Properties *)

(** ** The stable sort *)

Section SortByProperties.
Context {A : Type} (key : A -> Q).

Definition key_le (a b : A) : Prop := key a <= key b.

Lemma insert_by_perm (a : A) (l : list A) :
  Permutation (a :: l) (insert_by Qle_bool key a l).
Proof.
  induction l as [|b l IH]; simpl; [reflexivity|].
  destruct (Qle_bool (key a) (key b)); [reflexivity|].
  rewrite perm_swap. constructor. exact IH.
Qed.

Lemma sort_by_perm (l : list A) : Permutation l (sort_by Qle_bool key l).
Proof.
  induction l as [|a l IH]; simpl; [reflexivity|].
  rewrite <- insert_by_perm. constructor. exact IH.
Qed.

Lemma insert_by_hdrel (a b : A) (l : list A) :
  key_le b a -> HdRel key_le b l -> HdRel key_le b (insert_by Qle_bool key a l).
Proof.
  intros Hba Hl. destruct l as [|c l]; simpl.
  - constructor. exact Hba.
  - destruct (Qle_bool (key a) (key c)); constructor; [exact Hba|].
    inversion Hl; assumption.
Qed.

Lemma insert_by_sorted (a : A) (l : list A) :
  Sorted key_le l -> Sorted key_le (insert_by Qle_bool key a l).
Proof.
  induction l as [|b l IH]; simpl; intros Hs.
  - repeat constructor.
  - destruct (Qle_bool (key a) (key b)) eqn:Hab.
    + constructor; [exact Hs|]. constructor. apply Qle_bool_imp_le. exact Hab.
    + inversion Hs as [|? ? Hs' Hhd]; subst. constructor; [apply IH; exact Hs'|].
      apply insert_by_hdrel; [|exact Hhd].
      unfold key_le. apply Qlt_le_weak, Qnot_le_lt.
      intros Hle. apply Qle_bool_iff in Hle. congruence.
Qed.

Lemma sort_by_sorted (l : list A) : Sorted key_le (sort_by Qle_bool key l).
Proof.
  induction l as [|a l IH]; simpl; [constructor|]. apply insert_by_sorted. exact IH.
Qed.

(** Stability: among the elements with a given key, the sort keeps the
    input order. *)
Lemma insert_by_filter_key (k : Q) (a : A) (l : list A) :
  filter (fun b => Qeq_bool (key b) k) (insert_by Qle_bool key a l)
  = filter (fun b => Qeq_bool (key b) k) (a :: l).
Proof.
  induction l as [|b l IH]; [reflexivity|]. cbn [insert_by].
  destruct (Qle_bool (key a) (key b)) eqn:Hab; [reflexivity|].
  cbn [filter]. rewrite IH. cbn [filter].
  destruct (Qeq_bool (key a) k) eqn:Ha, (Qeq_bool (key b) k) eqn:Hb; try reflexivity.
  exfalso. apply Qeq_bool_iff in Ha, Hb.
  assert (Hle : key a <= key b) by (rewrite Ha, Hb; apply Qle_refl).
  apply Qle_bool_iff in Hle. congruence.
Qed.

Lemma sort_by_filter_key (k : Q) (l : list A) :
  filter (fun b => Qeq_bool (key b) k) (sort_by Qle_bool key l)
  = filter (fun b => Qeq_bool (key b) k) l.
Proof.
  induction l as [|a l IH]; [reflexivity|]. cbn [sort_by].
  rewrite insert_by_filter_key. cbn [filter]. rewrite IH. reflexivity.
Qed.

Lemma key_le_trans : Relations_1.Transitive key_le.
Proof. intros a b c H1 H2. unfold key_le in *. eapply Qle_trans; eassumption. Qed.

(** Two sorted permutations of each other agree when elements with equal
    keys are equal. *)
Lemma sorted_perm_unique (l1 l2 : list A) :
  StronglySorted key_le l1 -> StronglySorted key_le l2 -> Permutation l1 l2 ->
  (forall a b, In a l1 -> In b l1 -> key a == key b -> a = b) -> l1 = l2.
Proof.
  revert l2. induction l1 as [|a r1 IH]; intros l2 Hs1 Hs2 Hp Hinj.
  - symmetry. apply Permutation_nil. exact Hp.
  - destruct l2 as [|b r2].
    { exfalso. eapply Permutation_nil_cons. symmetry. exact Hp. }
    apply StronglySorted_inv in Hs1 as [Hs1 Hf1].
    apply StronglySorted_inv in Hs2 as [Hs2 Hf2].
    assert (Hb : In b (a :: r1)) by (apply (Permutation_in _ (Permutation_sym Hp)); left; reflexivity).
    assert (Ha : In a (b :: r2)) by (apply (Permutation_in _ Hp); left; reflexivity).
    assert (Hab : key a <= key b).
    { destruct Hb as [<-|Hb]; [apply Qle_refl|].
      rewrite Forall_forall in Hf1. apply (Hf1 b Hb). }
    assert (Hba : key b <= key a).
    { destruct Ha as [<-|Ha]; [apply Qle_refl|].
      rewrite Forall_forall in Hf2. apply (Hf2 a Ha). }
    assert (a = b) as <-.
    { apply Hinj; [left; reflexivity|exact Hb|]. apply Qle_antisym; assumption. }
    f_equal. apply IH; [exact Hs1|exact Hs2|eapply Permutation_cons_inv; exact Hp|].
    intros c e Hc He. apply Hinj; right; assumption.
Qed.
End SortByProperties.

(** ** Construction of a design (C6) *)

Definition start_key (s : CueSectionGeometry) : Q := x (start s).

Lemma make_design_sorted (l : list CueSectionGeometry) :
  Sorted (key_le start_key) (sections (make_design l)).
Proof. apply sort_by_sorted. Qed.

Lemma make_design_perm (l : list CueSectionGeometry) :
  Permutation l (sections (make_design l)).
Proof. apply sort_by_perm. Qed.

(** Two sections starting at the same position keep the caller's order. *)
Definition joint_0_1 : CueSectionGeometry :=
  mkSection "joint" (mkPoint3D 0 10 0) (mkPoint3D 1 10 0).
Definition forearm_0_2 : CueSectionGeometry :=
  mkSection "forearm" (mkPoint3D 0 10 0) (mkPoint3D 2 10 0).

(** C6 (counterexample): the permutations [joint 0..1, forearm 0..2] and
    [forearm 0..2, joint 0..1] give designs with different section orders and
    different total lengths (2 and 1), since both sections start at 0. *)
Lemma C6_equal_starts_keep_caller_order :
  Permutation [joint_0_1; forearm_0_2] [forearm_0_2; joint_0_1] /\
  sections (make_design [joint_0_1; forearm_0_2]) = [joint_0_1; forearm_0_2] /\
  sections (make_design [forearm_0_2; joint_0_1]) = [forearm_0_2; joint_0_1] /\
  total_length (make_design [joint_0_1; forearm_0_2]) == 2 /\
  total_length (make_design [forearm_0_2; joint_0_1]) == 1.
Proof.
  split; [apply perm_swap|]. vm_compute. repeat split; reflexivity.
Qed.

(** C6 (amended): the design stores its sections sorted ascending by
    [start.x], as a stable rearrangement of the input (a permutation in which
    the sections with any given start position keep the caller's order); two
    permutations of a section
    list in which distinct sections have distinct start positions construct
    designs with the same section order, total length, continuity issues and
    manufacturing issues. *)
Theorem C6_make_design_canonical :
  (forall l, Sorted (key_le start_key) (sections (make_design l)) /\
             Permutation l (sections (make_design l)) /\
             forall k, filter (fun s => Qeq_bool (x (start s)) k) (sections (make_design l))
                       = filter (fun s => Qeq_bool (x (start s)) k) l) /\
  (forall l1 l2, Permutation l1 l2 ->
     (forall a b, In a l1 -> In b l1 -> x (start a) == x (start b) -> a = b) ->
     sections (make_design l1) = sections (make_design l2) /\
     total_length (make_design l1) = total_length (make_design l2) /\
     validate_continuity (make_design l1) = validate_continuity (make_design l2) /\
     (forall atan_degrees,
        validate_manufacturing_constraints atan_degrees (make_design l1)
        = validate_manufacturing_constraints atan_degrees (make_design l2))).
Proof.
  split.
  - intros l. split; [apply make_design_sorted|split; [apply make_design_perm|]].
    intros k. apply (sort_by_filter_key (fun s => x (start s))).
  - intros l1 l2 Hp Hinj.
    assert (Heq : sections (make_design l1) = sections (make_design l2)).
    { apply (sorted_perm_unique start_key).
      - apply Sorted_StronglySorted; [apply key_le_trans|apply make_design_sorted].
      - apply Sorted_StronglySorted; [apply key_le_trans|apply make_design_sorted].
      - rewrite <- !make_design_perm. exact Hp.
      - intros a b Ha Hb. apply Hinj.
        + apply (Permutation_in _ (Permutation_sym (make_design_perm l1))). exact Ha.
        + apply (Permutation_in _ (Permutation_sym (make_design_perm l1))). exact Hb. }
    unfold total_length, validate_continuity, validate_manufacturing_constraints.
    rewrite Heq. repeat split; reflexivity.
Qed.

Definition handle_8_18 : CueSectionGeometry :=
  mkSection "handle" (mkPoint3D 8 11 0) (mkPoint3D 18 12 0).
Definition forearm_1_8 : CueSectionGeometry :=
  mkSection "forearm" (mkPoint3D 1 10 0) (mkPoint3D 8 11 0).

Lemma C6_make_design_canonical_witness :
  sections (make_design [handle_8_18; joint_0_1; forearm_1_8])
  = sections (make_design [forearm_1_8; handle_8_18; joint_0_1]).
Proof.
  apply (proj2 C6_make_design_canonical).
  - eapply perm_trans; [apply perm_skip; apply perm_swap|apply perm_swap].
  - intros a b Ha Hb Hab. simpl in Ha, Hb.
    destruct Ha as [<-|[<-|[<-|[]]]]; destruct Hb as [<-|[<-|[<-|[]]]];
      try reflexivity; vm_compute in Hab; discriminate Hab.
Defined.

(** ** Interpolation within a section (C2) *)

Lemma section_radius_in_range (s : CueSectionGeometry) (xp : Q) :
  x (start s) < x (end_ s) -> x (start s) <= xp <= x (end_ s) ->
  section_radius_at_position s xp
  = Ok (start_radius s + ((xp - x (start s)) / length s) * (end_radius s - start_radius s)).
Proof.
  intros Hlt [H1 H2]. unfold section_radius_at_position.
  destruct (Qlt_le_dec xp (x (start s))) as [H|_].
  { exfalso. apply (Qlt_not_le _ _ H H1). }
  destruct (Qlt_le_dec (x (end_ s)) xp) as [H|_].
  { exfalso. apply (Qlt_not_le _ _ H H2). }
  destruct (Qeq_bool (length s) 0) eqn:Hz; [|reflexivity].
  exfalso. apply Qeq_bool_eq in Hz. unfold length in Hz.
  apply (Qlt_not_eq _ _ Hlt). rewrite <- (Qplus_0_r (x (start s))).
  rewrite <- Hz. ring.
Qed.

Lemma section_radius_out_of_range (s : CueSectionGeometry) (xp : Q) :
  xp < x (start s) \/ x (end_ s) < xp -> section_radius_at_position s xp = Err ValueError.
Proof.
  intros H. unfold section_radius_at_position.
  destruct (Qlt_le_dec xp (x (start s))) as [_|H1]; [reflexivity|].
  destruct (Qlt_le_dec (x (end_ s)) xp) as [_|H2]; [reflexivity|].
  exfalso. destruct H as [H|H]; [apply (Qlt_not_le _ _ H H1)|apply (Qlt_not_le _ _ H H2)].
Qed.

Lemma length_pos_nonzero (s : CueSectionGeometry) :
  x (start s) < x (end_ s) -> ~ length s == 0.
Proof.
  intros H Hz. unfold length in Hz. apply (Qlt_not_eq _ _ H).
  rewrite <- (Qplus_0_r (x (start s))), <- Hz. ring.
Qed.

(** C2 (amended): for a section with [start.x < end.x], [radius_at_position]
    is the linear interpolation on [start.x, end.x] and raises [ValueError]
    outside it; in exact arithmetic it gives [start_radius] at [start.x],
    [end_radius] at [end.x] and the mean radius at the midpoint. *)
Theorem C2_section_radius_interpolation (s : CueSectionGeometry) :
  x (start s) < x (end_ s) ->
  (forall xp, x (start s) <= xp <= x (end_ s) ->
     section_radius_at_position s xp
     = Ok (start_radius s + ((xp - x (start s)) / length s)
                            * (end_radius s - start_radius s))) /\
  (forall xp, xp < x (start s) \/ x (end_ s) < xp ->
     section_radius_at_position s xp = Err ValueError) /\
  (exists rad, section_radius_at_position s (x (start s)) = Ok rad /\ rad == start_radius s) /\
  (exists rad, section_radius_at_position s (x (end_ s)) = Ok rad /\ rad == end_radius s) /\
  (exists rad, section_radius_at_position s ((x (start s) + x (end_ s)) / 2) = Ok rad /\
               rad == (start_radius s + end_radius s) / 2).
Proof.
  intros Hlt. pose proof (length_pos_nonzero s Hlt) as Hnz.
  assert (Hle : x (start s) <= x (end_ s)) by (apply Qlt_le_weak; exact Hlt).
  split; [intros xp Hxp; apply section_radius_in_range; assumption|].
  split; [apply section_radius_out_of_range|].
  split; [|split].
  - eexists. split; [apply section_radius_in_range; [exact Hlt|split; [apply Qle_refl|exact Hle]]|].
    unfold length in *. field. exact Hnz.
  - eexists. split; [apply section_radius_in_range; [exact Hlt|split; [exact Hle|apply Qle_refl]]|].
    unfold length in *. field. exact Hnz.
  - eexists. split.
    + apply section_radius_in_range; [exact Hlt|].
      split.
      * apply Qle_shift_div_l; [reflexivity|].
        apply (Qle_trans _ (x (start s) + x (start s))); [rewrite Qmult_comm; ring_simplify; apply Qle_refl|].
        apply Qplus_le_r. exact Hle.
      * apply Qle_shift_div_r; [reflexivity|].
        apply (Qle_trans _ (x (end_ s) + x (end_ s))); [apply Qplus_le_l; exact Hle|].
        rewrite Qmult_comm. ring_simplify. apply Qle_refl.
    + unfold length in *. field. exact Hnz.
Qed.

Local Set Warnings "-inexact-float".

Definition handle_14_to_5_2 : Binary64.CueSectionGeometry :=
  Binary64.mkSection "handle" (Binary64.mkPoint3D 0.0 14.0) (Binary64.mkPoint3D 10.0 5.2).

(** C2 (counterexample): on Python floats the section [0 -> 10] in with
    radii [14.0 -> 5.2] mm answers [5.199999999999999] at its end, not
    [end_radius = 5.2]. *)
Lemma C2_end_radius_rounds_binary64 :
  Binary64.section_radius_at_position handle_14_to_5_2 10.0%float
  = Ok 5.199999999999999%float /\
  PrimFloat.eqb 5.199999999999999%float (Binary64.end_radius handle_14_to_5_2) = false.
Proof. split; vm_compute; reflexivity. Qed.

(** ** Lookup by position (C10) *)

Lemma first_containing_spec (l : list CueSectionGeometry) (xp : Q) (S : CueSectionGeometry) :
  first_containing l xp = Some S ->
  contains S xp = true /\
  exists pre post, l = pre ++ S :: post /\ forall S', In S' pre -> contains S' xp = false.
Proof.
  induction l as [|a l IH]; simpl; [discriminate|].
  destruct (contains a xp) eqn:Ha.
  - intros [= <-]. split; [exact Ha|]. exists [], l. split; [reflexivity|]. intros _ [].
  - intros H. destruct (IH H) as [Hc [pre [post [-> Hpre]]]]. split; [exact Hc|].
    exists (a :: pre), post. split; [reflexivity|].
    intros S' [<-|HS']; [exact Ha|apply Hpre; exact HS'].
Qed.

Lemma first_containing_app (pre l : list CueSectionGeometry) (xp : Q) :
  (forall S', In S' pre -> contains S' xp = false) ->
  first_containing (pre ++ l) xp = first_containing l xp.
Proof.
  induction pre as [|a pre IH]; simpl; intros H; [reflexivity|].
  rewrite (H a (or_introl eq_refl)). apply IH. intros S' HS'. apply H. right. exact HS'.
Qed.

(** C10 (amended): [get_section_at_position] returns the first section, in
    the design's ascending start order, whose closed interval contains the
    position; at the shared boundary [xp] of abutting adjacent sections [A]
    (of positive length) and [B], with no earlier section containing [xp],
    it returns [A], and [radius_at_position] evaluates [A]'s interpolation
    at its end point, which is [A]'s end radius in exact arithmetic. *)
Theorem C10_boundary_belongs_to_earlier_section :
  (forall d xp S, get_section_at_position d xp = Some S ->
     contains S xp = true /\
     exists pre post, sections d = pre ++ S :: post /\
                      forall S', In S' pre -> contains S' xp = false) /\
  (forall d pre A B post xp,
     sections d = pre ++ A :: B :: post ->
     x (end_ A) == xp -> x (start B) == xp -> x (start A) < x (end_ A) ->
     (forall S', In S' pre -> contains S' xp = false) ->
     get_section_at_position d xp = Some A /\
     exists rad, radius_at_position d xp = Ok rad /\ rad == end_radius A).
Proof.
  split; [intros d xp S; apply first_containing_spec|].
  intros d pre A B post xp Hd HA HB Hlt Hpre.
  assert (Hin : x (start A) <= xp <= x (end_ A)).
  { split; rewrite <- HA; [apply Qlt_le_weak; exact Hlt|apply Qle_refl]. }
  assert (Hget : get_section_at_position d xp = Some A).
  { unfold get_section_at_position. rewrite Hd, first_containing_app by exact Hpre.
    simpl. unfold contains. destruct Hin as [H1 H2].
    apply Qle_bool_iff in H1. apply Qle_bool_iff in H2. rewrite H1, H2. reflexivity. }
  split; [exact Hget|].
  unfold radius_at_position. rewrite Hget.
  eexists. split; [apply section_radius_in_range; assumption|].
  pose proof (length_pos_nonzero A Hlt) as Hnz.
  rewrite <- HA. unfold length in *. field. exact Hnz.
Qed.

Definition forearm_14_to_5_2 : Binary64.CueSectionGeometry :=
  Binary64.mkSection "forearm" (Binary64.mkPoint3D 0.0 14.0) (Binary64.mkPoint3D 10.0 5.2).
Definition handle_6 : Binary64.CueSectionGeometry :=
  Binary64.mkSection "handle" (Binary64.mkPoint3D 10.0 6.0) (Binary64.mkPoint3D 20.0 6.0).

(** C10 (counterexample): on Python floats, at the boundary [10.0] of
    forearm [0 -> 10] (radii [14.0 -> 5.2]) and handle [10 -> 20], the
    forearm is returned, but the radius answered is [5.199999999999999], not
    the forearm's end radius [5.2]. *)
Lemma C10_boundary_radius_rounds_binary64 :
  Binary64.get_section_at_position
    (Binary64.make_design [handle_6; forearm_14_to_5_2]) 10.0%float
  = Some forearm_14_to_5_2 /\
  Binary64.radius_at_position
    (Binary64.make_design [handle_6; forearm_14_to_5_2]) 10.0%float
  = Ok 5.199999999999999%float /\
  PrimFloat.eqb 5.199999999999999%float (Binary64.end_radius forearm_14_to_5_2) = false.
Proof. repeat split; vm_compute; reflexivity. Qed.

(** ** Continuity (C3) *)

Definition gap_exceeds (p : CueSectionGeometry * CueSectionGeometry) : bool :=
  if Qlt_le_dec gap_tolerance (Qabs (x (end_ (fst p)) - x (start (snd p)))) then true else false.
Definition radius_jump_exceeds (p : CueSectionGeometry * CueSectionGeometry) : bool :=
  if Qlt_le_dec radius_jump_tolerance (Qabs (end_radius (fst p) - start_radius (snd p)))
  then true else false.

Definition is_gap (i : continuity_issue) : bool :=
  match i with Gap _ _ => true | LargeRadiusJump _ _ => false end.
Definition is_radius_jump (i : continuity_issue) : bool :=
  match i with Gap _ _ => false | LargeRadiusJump _ _ => true end.

Lemma continuity_loop_pairs (l : list CueSectionGeometry) :
  continuity_loop l
  = flat_map (fun p => pair_continuity_issues (fst p) (snd p)) (adjacent_pairs l).
Proof.
  induction l as [|a l IH]; [reflexivity|].
  destruct l as [|b l]; [reflexivity|].
  change (continuity_loop (a :: b :: l))
    with (pair_continuity_issues a b ++ continuity_loop (b :: l)).
  rewrite IH. reflexivity.
Qed.

Lemma pair_continuity_issues_flags (a b : CueSectionGeometry) :
  pair_continuity_issues a b
  = (if gap_exceeds (a, b) then [Gap (section_type a) (section_type b)] else [])
    ++ (if radius_jump_exceeds (a, b)
        then [LargeRadiusJump (section_type a) (section_type b)] else []).
Proof.
  unfold pair_continuity_issues, gap_exceeds, radius_jump_exceeds; cbn [fst snd].
  destruct (Qlt_le_dec gap_tolerance _); destruct (Qlt_le_dec radius_jump_tolerance _);
    reflexivity.
Qed.

Lemma validate_continuity_pairs (d : CueDesignGeometry) :
  validate_continuity d
  = flat_map (fun p => pair_continuity_issues (fst p) (snd p)) (adjacent_pairs (sections d)).
Proof.
  unfold validate_continuity. destruct (Nat.ltb_spec (List.length (sections d)) 2) as [H|H].
  - destruct (sections d) as [|a [|b l]]; [reflexivity|reflexivity|simpl in H; lia].
  - apply continuity_loop_pairs.
Qed.

Lemma count_gaps (ps : list (CueSectionGeometry * CueSectionGeometry)) :
  List.length (filter is_gap (flat_map (fun p => pair_continuity_issues (fst p) (snd p)) ps))
  = List.length (filter gap_exceeds ps).
Proof.
  induction ps as [|[a b] ps IH]; [reflexivity|].
  cbn [flat_map fst snd filter]. rewrite filter_app, length_app, IH.
  rewrite pair_continuity_issues_flags.
  destruct (gap_exceeds (a, b)); destruct (radius_jump_exceeds (a, b));
    cbn [filter app List.length is_gap is_radius_jump]; lia.
Qed.

Lemma count_radius_jumps (ps : list (CueSectionGeometry * CueSectionGeometry)) :
  List.length (filter is_radius_jump
                 (flat_map (fun p => pair_continuity_issues (fst p) (snd p)) ps))
  = List.length (filter radius_jump_exceeds ps).
Proof.
  induction ps as [|[a b] ps IH]; [reflexivity|].
  cbn [flat_map fst snd filter]. rewrite filter_app, length_app, IH.
  rewrite pair_continuity_issues_flags.
  destruct (gap_exceeds (a, b)); destruct (radius_jump_exceeds (a, b));
    cbn [filter app List.length is_gap is_radius_jump]; lia.
Qed.

Lemma small_abs_not_exceeds (q tol : Q) : 0 <= tol -> q == 0 ->
  (if Qlt_le_dec tol (Qabs q) then true else false) = false.
Proof.
  intros Htol Hq. destruct (Qlt_le_dec tol (Qabs q)) as [H|_]; [|reflexivity].
  exfalso. rewrite Hq in H. simpl in H. apply (Qlt_not_le _ _ H Htol).
Qed.

(** C3: [validate_continuity] is total; its issues are, pair by adjacent pair
    of the sorted sections, a gap issue when [|prev.end.x - next.start.x| >
    0.001] followed by a radius-jump issue when [|prev.end_radius -
    next.start_radius| > 0.1]; so there are as many gap issues as pairs with a
    gap and as many jump issues as pairs with a jump; the result is empty for
    fewer than two sections and for perfectly abutting sections with matching
    boundary radii. *)
Theorem C3_validate_continuity_issues :
  (forall d,
     validate_continuity d
     = flat_map (fun p =>
                   (if gap_exceeds p then [Gap (section_type (fst p)) (section_type (snd p))]
                    else [])
                   ++ (if radius_jump_exceeds p
                       then [LargeRadiusJump (section_type (fst p)) (section_type (snd p))]
                       else []))
                (adjacent_pairs (sections d)) /\
     List.length (filter is_gap (validate_continuity d))
     = List.length (filter gap_exceeds (adjacent_pairs (sections d))) /\
     List.length (filter is_radius_jump (validate_continuity d))
     = List.length (filter radius_jump_exceeds (adjacent_pairs (sections d)))) /\
  (forall d, (List.length (sections d) < 2)%nat -> validate_continuity d = []) /\
  (forall d,
     (forall p, In p (adjacent_pairs (sections d)) ->
        x (end_ (fst p)) == x (start (snd p)) /\ end_radius (fst p) == start_radius (snd p)) ->
     validate_continuity d = []).
Proof.
  split; [|split].
  - intros d. rewrite validate_continuity_pairs.
    split; [|split; [apply count_gaps|apply count_radius_jumps]].
    apply flat_map_ext. intros [a b]. apply pair_continuity_issues_flags.
  - intros d H. unfold validate_continuity. apply Nat.ltb_lt in H. rewrite H. reflexivity.
  - intros d H. rewrite validate_continuity_pairs.
    induction (adjacent_pairs (sections d)) as [|[a b] ps IH]; [reflexivity|].
    cbn [flat_map]. rewrite IH by (intros q Hq; apply H; right; exact Hq).
    destruct (H (a, b) (or_introl eq_refl)) as [Hg Hr]. cbn [fst snd] in Hg, Hr.
    rewrite pair_continuity_issues_flags. unfold gap_exceeds, radius_jump_exceeds.
    cbn [fst snd].
    rewrite (small_abs_not_exceeds _ gap_tolerance)
      by (unfold gap_tolerance; discriminate || (rewrite Hg; ring)).
    rewrite (small_abs_not_exceeds _ radius_jump_tolerance)
      by (unfold radius_jump_tolerance; discriminate || (rewrite Hr; ring)).
    reflexivity.
Qed.

(** ** Manufacturing constraints (C4) *)

Section ManufacturingProperties.
Variable atan_degrees : Q -> Q.

Lemma radius_too_small_in (s : CueSectionGeometry) (ty : string) (m : Q) :
  In (RadiusTooSmall ty m) (section_manufacturing_issues atan_degrees s) <->
  Qmin (start_radius s) (end_radius s) < 5 /\
  ty = section_type s /\ m = Qmin (start_radius s) (end_radius s).
Proof.
  unfold section_manufacturing_issues. cbv zeta.
  rewrite !in_app_iff.
  destruct (Qlt_le_dec 5 (Qabs _)); destruct (Qlt_le_dec (Qmin _ _) 5) as [Hs|Hs];
    destruct (Qlt_le_dec 25 (Qmax _ _)); simpl; split;
    try (intros [H [-> ->]]; tauto); try (intros [H _]; exfalso; apply (Qlt_not_le _ _ H Hs));
    intros H; repeat destruct H as [H|H]; try discriminate; try contradiction;
    injection H as <- <-; auto.
Qed.

Lemma section_flagged_iff (s : CueSectionGeometry) :
  section_manufacturing_issues atan_degrees s <> [] <->
  5 < Qabs (taper_angle_degrees atan_degrees s) \/
  Qmin (start_radius s) (end_radius s) < 5 \/ 25 < Qmax (start_radius s) (end_radius s).
Proof.
  unfold section_manufacturing_issues. cbv zeta.
  destruct (Qlt_le_dec 5 (Qabs _)) as [H1|H1].
  { split; [intros _; left; exact H1|intros _; simpl; discriminate]. }
  destruct (Qlt_le_dec (Qmin _ _) 5) as [H2|H2].
  { split; [intros _; right; left; exact H2|intros _; simpl; discriminate]. }
  destruct (Qlt_le_dec 25 (Qmax _ _)) as [H3|H3].
  { split; [intros _; right; right; exact H3|intros _; simpl; discriminate]. }
  simpl. split; [intros H; exfalso; apply H; reflexivity|].
  intros [H|[H|H]]; exfalso;
    [apply (Qlt_not_le _ _ H H1)|apply (Qlt_not_le _ _ H H2)|apply (Qlt_not_le _ _ H H3)].
Qed.
End ManufacturingProperties.

(** C4: [validate_manufacturing_constraints] lists, section by section, the
    issues of that section; a section has an issue exactly when
    [|taper_angle_degrees| > 5], [min(start_radius, end_radius) < 5] or
    [max(start_radius, end_radius) > 25]; the radius bounds are inclusive: a
    minimum radius of exactly 5.0 mm raises no radius-too-small issue, one of
    4.99 mm does.  ([atan_degrees] stands for [math.degrees(math.atan(_))].) *)
Theorem C4_manufacturing_flags (atan_degrees : Q -> Q) :
  (forall d, validate_manufacturing_constraints atan_degrees d
             = flat_map (section_manufacturing_issues atan_degrees) (sections d)) /\
  (forall s, section_manufacturing_issues atan_degrees s <> [] <->
             5 < Qabs (taper_angle_degrees atan_degrees s) \/
             Qmin (start_radius s) (end_radius s) < 5 \/
             25 < Qmax (start_radius s) (end_radius s)) /\
  (forall s ty m, In (RadiusTooSmall ty m) (section_manufacturing_issues atan_degrees s) <->
             Qmin (start_radius s) (end_radius s) < 5 /\
             ty = section_type s /\ m = Qmin (start_radius s) (end_radius s)) /\
  (forall s, Qmin (start_radius s) (end_radius s) == 5 ->
     forall ty m, ~ In (RadiusTooSmall ty m) (section_manufacturing_issues atan_degrees s)) /\
  (forall s, Qmin (start_radius s) (end_radius s) == 499 # 100 ->
     In (RadiusTooSmall (section_type s) (Qmin (start_radius s) (end_radius s)))
        (section_manufacturing_issues atan_degrees s)).
Proof.
  split; [intros d; reflexivity|].
  split; [apply section_flagged_iff|].
  split; [apply radius_too_small_in|].
  split.
  - intros s H5 ty m Hin. apply radius_too_small_in in Hin as [Hlt _].
    rewrite H5 in Hlt. discriminate Hlt.
  - intros s H. apply radius_too_small_in. repeat split.
    rewrite H. reflexivity.
Qed.

(** A crude stand-in for [math.degrees(math.atan(_))]: [180/pi * y]. *)
Definition atan_degrees_linear (y : Q) : Q := (573 # 10) * y.

Definition forearm_5_to_6 : CueSectionGeometry :=
  mkSection "forearm" (mkPoint3D 10 5 0) (mkPoint3D 20 6 0).
Definition forearm_4_99_to_6 : CueSectionGeometry :=
  mkSection "forearm" (mkPoint3D 10 (499 # 100) 0) (mkPoint3D 20 6 0).

Lemma C4_manufacturing_flags_witness :
  (forall ty m, ~ In (RadiusTooSmall ty m)
                   (section_manufacturing_issues atan_degrees_linear forearm_5_to_6)) /\
  In (RadiusTooSmall "forearm" (499 # 100))
     (section_manufacturing_issues atan_degrees_linear forearm_4_99_to_6).
Proof.
  split.
  - apply (proj1 (proj2 (proj2 (proj2 (C4_manufacturing_flags atan_degrees_linear))))).
    vm_compute. reflexivity.
  - change (499 # 100) with (Qmin (start_radius forearm_4_99_to_6) (end_radius forearm_4_99_to_6)).
    change "forearm"%string with (section_type forearm_4_99_to_6).
    apply (proj2 (proj2 (proj2 (proj2 (C4_manufacturing_flags atan_degrees_linear))))).
    vm_compute. reflexivity.
Defined.

(** ** Section sequence (C5) *)

(** The comparison as the spec words it: positions [0 .. min(5, n) - 1], one
    mismatch per position whose actual type differs from the expected one. *)
Definition positional_mismatches_spec (section_types : list string) : list sequence_issue :=
  flat_map (fun i =>
              let expected := nth i VALID_SEQUENCE ""%string in
              let actual := nth i section_types ""%string in
              if String.eqb actual expected then [] else [SequenceMismatch i expected actual])
           (seq 0 (Nat.min 5 (List.length section_types))).

Definition start_of (s : SectionData) : Q :=
  match sd_start_position_in s with Some q => q | None => 0 end.
Definition type_of (s : SectionData) : string :=
  match sd_section_type s with Some t => t | None => ""%string end.

Definition has_sequence_fields (s : SectionData) : Prop :=
  sd_start_position_in s = Some (start_of s) /\ sd_section_type s = Some (type_of s).

Lemma sequence_loop_spec (section_types : list string) :
  sequence_loop 0 VALID_SEQUENCE section_types = positional_mismatches_spec section_types.
Proof.
  destruct section_types as [|a [|b [|c [|d [|e rest]]]]]; reflexivity.
Qed.

Lemma sort_by_map {A B : Type} (k : A -> Q) (kb : B -> Q) (f : A -> B) (l : list A) :
  (forall a, kb (f a) = k a) ->
  sort_by Qle_bool kb (map f l) = map f (sort_by Qle_bool k l).
Proof.
  intros Hk. induction l as [|a l IH]; [reflexivity|]. simpl. rewrite IH.
  generalize (sort_by Qle_bool k l) as m. induction m as [|b m IHm]; [reflexivity|].
  simpl. rewrite !Hk. destruct (Qle_bool (k a) (k b)); [reflexivity|].
  simpl. rewrite IHm. reflexivity.
Qed.

Lemma traverse_keys (l : list SectionData) :
  Forall has_sequence_fields l ->
  traverse (fun s => k <- subscript (sd_start_position_in s);; Ok (k, s)) l
  = Ok (map (fun s => (start_of s, s)) l).
Proof.
  induction 1 as [|s l [Hs _] _ IH]; [reflexivity|].
  simpl. rewrite Hs. simpl. rewrite IH. reflexivity.
Qed.

Lemma traverse_types (l : list SectionData) :
  Forall has_sequence_fields l ->
  traverse (fun s => subscript (sd_section_type s)) l = Ok (map type_of l).
Proof.
  induction 1 as [|s l [_ Hs] _ IH]; [reflexivity|].
  simpl. rewrite Hs. simpl. rewrite IH. reflexivity.
Qed.

(** C5: for records carrying [start_position_in] and [section_type],
    [validate_section_sequence] sorts them (stably) by start position and
    reports one mismatch per position [i < min(5, n)] where the sorted type
    differs from [joint, forearm, handle, sleeve, butt]; the records
    [forearm, handle, joint] (in start order) give exactly the mismatches at
    positions 0, 1 and 2. *)
Theorem C5_section_sequence_mismatches :
  (forall l, Forall has_sequence_fields l ->
     validate_section_sequence l
     = Ok (positional_mismatches_spec (map type_of (sort_by Qle_bool start_of l))) /\
     Sorted (key_le start_of) (sort_by Qle_bool start_of l) /\
     Permutation l (sort_by Qle_bool start_of l)) /\
  (forall s1 s2 s3,
     sd_section_type s1 = Some "forearm"%string -> sd_section_type s2 = Some "handle"%string ->
     sd_section_type s3 = Some "joint"%string ->
     sd_start_position_in s1 = Some 0 -> sd_start_position_in s2 = Some 10 ->
     sd_start_position_in s3 = Some 20 ->
     validate_section_sequence [s3; s1; s2]
     = Ok [SequenceMismatch 0 "joint" "forearm"; SequenceMismatch 1 "forearm" "handle";
           SequenceMismatch 2 "handle" "joint"]%string).
Proof.
  split.
  - intros l Hl. split; [|split; [apply sort_by_sorted|apply sort_by_perm]].
    destruct l as [|s0 l0]; [reflexivity|].
    unfold validate_section_sequence. rewrite traverse_keys by exact Hl. cbn [bind].
    rewrite (sort_by_map start_of fst (fun s => (start_of s, s))) by reflexivity.
    rewrite map_map. cbn [snd]. rewrite map_id.
    rewrite traverse_types.
    + cbn [bind]. rewrite sequence_loop_spec. reflexivity.
    + apply Forall_forall. intros s Hs. rewrite Forall_forall in Hl. apply Hl.
      apply (Permutation_in _ (Permutation_sym (sort_by_perm start_of _))). exact Hs.
  - intros s1 s2 s3 T1 T2 T3 P1 P2 P3.
    unfold validate_section_sequence. cbn [traverse subscript bind].
    rewrite P1, P2, P3. cbn [bind map fst snd sort_by].
    unfold insert_by. cbn.
    rewrite T1, T2, T3. reflexivity.
Qed.

(** ** Section-type constraints (C1) *)

(** C1 (code bug): [validate_section_constraints] looks up the bare name
    [SECTION_CONSTRAINTS], which [validators.py] binds only inside the body
    of [CueGeometryValidator]; every call, for a known or an unknown section
    type alike, raises [NameError] instead of returning an issue list. *)
Theorem C1_section_constraints_name_error (section_data : SectionData) :
  validate_section_constraints validators_module_globals section_data = Err NameError.
Proof. reflexivity. Qed.

Definition ferrule_record : SectionData :=
  mkSectionData (Some "ferrule"%string) (Some 0) (Some 1) (Some 13) (Some 13).

(** With the class attribute in scope, as the scoped name
    [CueGeometryValidator.SECTION_CONSTRAINTS] would give, an unknown type
    yields no issue and a forearm of 6 in is too short. *)
Definition globals_with_class_table : list (string * py_global) :=
  ("SECTION_CONSTRAINTS"%string, GConstraintTable CueGeometryValidator_SECTION_CONSTRAINTS)
  :: validators_module_globals.

Lemma section_constraints_with_class_table_unknown :
  validate_section_constraints globals_with_class_table ferrule_record = Ok [].
Proof. reflexivity. Qed.

Lemma section_constraints_with_class_table_forearm :
  validate_section_constraints globals_with_class_table
    (mkSectionData (Some "forearm"%string) (Some 0) (Some 6) (Some 20) (Some 22))
  = Ok [TooShort "forearm" 6].
Proof. vm_compute. reflexivity. Qed.

(** ** Inlay patterns (C8) *)

(** C8: a pattern with [pattern_id] and a valid [pattern_category], without
    [pattern_style], [repeat_count], [geometric_definition] and
    [material_assignment], has exactly one issue: the missing
    [pattern_style]. *)
Theorem C8_missing_style_single_issue (pattern_data : PyDict) (pid : PyVal) (category : string) :
  assoc "pattern_id" pattern_data = Some pid ->
  assoc "pattern_category" pattern_data = Some (PStr category) ->
  In category VALID_CATEGORIES ->
  assoc "pattern_style" pattern_data = None ->
  assoc "repeat_count" pattern_data = None ->
  assoc "geometric_definition" pattern_data = None ->
  assoc "material_assignment" pattern_data = None ->
  validate_pattern pattern_data = Ok [MissingRequiredField "pattern_style"].
Proof.
  intros Hid Hcat Hvalid Hstyle Hrep Hgeom Hmat.
  unfold validate_pattern, dict_in, dict_get. cbn [flat_map].
  rewrite Hid, Hcat, Hstyle, Hrep, Hgeom, Hmat. cbn [flat_map check_if negb app truthy bind].
  assert (Hin : in_str_list (PStr category) VALID_CATEGORIES = true).
  { unfold in_str_list. apply existsb_exists. exists category. split; [exact Hvalid|apply String.eqb_refl]. }
  rewrite Hin. cbn [negb andb check_if app repeat_count_invalid].
  rewrite andb_false_r. reflexivity.
Qed.

Lemma C8_missing_style_single_issue_witness :
  validate_pattern [("pattern_id", PStr "P-17"); ("pattern_category", PStr "boxed")]%string
  = Ok [MissingRequiredField "pattern_style"].
Proof.
  apply (C8_missing_style_single_issue _ (PStr "P-17") "boxed"); try reflexivity.
  simpl. left. reflexivity.
Defined.

(** ** Properties of the empty design (C9) *)

(** C9: for the design of no sections, total length, surface area and volume
    are 0, and [calculate_geometric_properties] raises [ValueError] (the
    [max] of [_calculate_moment_of_inertia] over no section). *)
Theorem C9_empty_design_properties_raise :
  total_length (make_design []) = 0 /\
  calculate_surface_area (make_design []) = 0 /\
  calculate_volume (make_design []) = 0 /\
  calculate_geometric_properties (make_design []) = Err ValueError.
Proof. repeat split. Qed.

(** ** Profile sampling (C7) *)

Lemma floor_le_py_int (q : Q) : (Qfloor q <= py_int q)%Z.
Proof.
  destruct q as [n d]. unfold Qfloor, py_int. cbn [Qnum Qden].
  assert (Hb : (0 < Z.pos d)%Z) by reflexivity.
  pose proof (Z.quot_rem' n (Z.pos d)) as Hq.
  pose proof (Z.div_mod n (Z.pos d) ltac:(lia)) as Hdm.
  pose proof (Z.mod_pos_bound n (Z.pos d) Hb) as Hm.
  destruct (Z.le_gt_cases 0 n) as [Hn|Hn].
  - pose proof (Z.rem_bound_pos n (Z.pos d) Hn Hb). nia.
  - pose proof (Z.rem_nonpos n (Z.pos d) ltac:(lia) ltac:(lia)). nia.
Qed.

Lemma in_py_range (i n : Z) : In i (py_range n) <-> (0 <= i < n)%Z.
Proof.
  unfold py_range. rewrite in_map_iff. split.
  - intros [k [<- Hk]]. apply in_seq in Hk. lia.
  - intros Hi. exists (Z.to_nat i). split; [lia|]. apply in_seq. lia.
Qed.

Lemma first_containing_found (l : list CueSectionGeometry) (xq : Q) :
  (exists S, In S l /\ contains S xq = true) ->
  exists S, first_containing l xq = Some S /\ In S l.
Proof.
  induction l as [|a l IH]; simpl; [intros [S [[] _]]|].
  intros [S [HS Hc]]. destruct (contains a xq) eqn:Ha.
  - exists a. split; [reflexivity|left; reflexivity].
  - destruct HS as [<-|HS]; [congruence|].
    destruct IH as [S' [H1 H2]]; [exists S; split; assumption|].
    exists S'. split; [exact H1|right; exact H2].
Qed.

Lemma first_containing_none (l : list CueSectionGeometry) (xq : Q) :
  (forall S, In S l -> contains S xq = false) -> first_containing l xq = None.
Proof.
  induction l as [|a l IH]; simpl; intros H; [reflexivity|].
  rewrite (H a (or_introl eq_refl)). apply IH. intros S HS. apply H. right. exact HS.
Qed.

Lemma contains_range (S : CueSectionGeometry) (xq : Q) :
  contains S xq = true -> x (start S) <= xq <= x (end_ S).
Proof.
  unfold contains. intros H. apply andb_prop in H as [H1 H2].
  split; apply Qle_bool_iff; assumption.
Qed.

Lemma radius_at_inside (d : CueDesignGeometry) (xq : Q) :
  Forall (fun s => x (start s) < x (end_ s)) (sections d) ->
  (exists S, In S (sections d) /\ contains S xq = true) ->
  exists rad, radius_at_position d xq = Ok rad.
Proof.
  intros Hpos Hex. destruct (first_containing_found _ _ Hex) as [S [HS Hin]].
  unfold radius_at_position, get_section_at_position. rewrite HS.
  destruct (first_containing_spec _ _ _ HS) as [Hc _].
  eexists. apply section_radius_in_range.
  - rewrite Forall_forall in Hpos. apply Hpos. exact Hin.
  - apply contains_range. exact Hc.
Qed.

Lemma radius_at_outside (d : CueDesignGeometry) (xq : Q) :
  (forall S, In S (sections d) -> contains S xq = false) ->
  radius_at_position d xq = Err ValueError.
Proof.
  intros H. unfold radius_at_position, get_section_at_position.
  rewrite first_containing_none by exact H. reflexivity.
Qed.

Lemma profile_loop_ok (d : CueDesignGeometry) (is : list Z) :
  (forall i, In i is -> radius_at_position d (sample_position i) = Err ValueError \/
                       exists rad, radius_at_position d (sample_position i) = Ok rad) ->
  exists pts, profile_loop d is = Ok pts /\
    forall p, In p pts <-> exists i rad, In i is /\
                 radius_at_position d (sample_position i) = Ok rad /\
                 p = mkProfilePoint (sample_position i) rad (rad * 2).
Proof.
  induction is as [|i is IH]; intros H.
  - exists []. split; [reflexivity|]. intros p. split; [intros []|].
    intros [i [rad [[] _]]].
  - destruct IH as [pts [Hl Hp]]; [intros j Hj; apply H; right; exact Hj|].
    simpl. destruct (radius_at_position d (sample_position i)) as [rad|e] eqn:Hr.
    + rewrite Hl. simpl. eexists. split; [reflexivity|].
      intros p. split.
      * intros [<-|Hin].
        -- exists i, rad. split; [left; reflexivity|split; [exact Hr|reflexivity]].
        -- apply Hp in Hin as [j [rad' [Hj Hrest]]]. exists j, rad'.
           split; [right; exact Hj|exact Hrest].
      * intros [j [rad' [[<-|Hj] [Hr' ->]]]].
        -- rewrite Hr in Hr'. injection Hr' as <-. left. reflexivity.
        -- right. apply Hp. exists j, rad'. split; [exact Hj|split; [exact Hr'|reflexivity]].
    + destruct (H i (or_introl eq_refl)) as [He|[rad He]]; rewrite Hr in He; [|discriminate].
      injection He as ->. rewrite Hl. exists pts. split; [reflexivity|].
      intros p. rewrite Hp. split.
      * intros [j [rad [Hj Hrest]]]. exists j, rad. split; [right; exact Hj|exact Hrest].
      * intros [j [rad [[<-|Hj] [Hr' Hpe]]]].
        -- rewrite Hr in Hr'. discriminate.
        -- exists j, rad. split; [exact Hj|split; assumption].
Qed.

Lemma first_containing_contains (l : list CueSectionGeometry) (xq : Q) (S : CueSectionGeometry) :
  first_containing l xq = Some S -> contains S xq = true.
Proof.
  induction l as [|s l IH]; cbn [first_containing]; [discriminate|].
  destruct (contains s xq) eqn:Hc; [intros H; injection H as <-; exact Hc|exact IH].
Qed.

(** [radius_at_position] fails only with [ValueError] or [ZeroDivisionError]. *)
Lemma radius_at_position_cases (d : CueDesignGeometry) (xq : Q) :
  radius_at_position d xq = Err ValueError \/
  radius_at_position d xq = Err ZeroDivisionError \/
  exists rad, radius_at_position d xq = Ok rad.
Proof.
  unfold radius_at_position. destruct (get_section_at_position d xq) as [S|]; [|left; reflexivity].
  unfold section_radius_at_position.
  destruct (Qlt_le_dec xq (x (start S))); [left; reflexivity|].
  destruct (Qlt_le_dec (x (end_ S)) xq); [left; reflexivity|].
  destruct (Qeq_bool (length S) 0); [right; left; reflexivity|].
  right; right; eexists; reflexivity.
Qed.

Lemma radius_at_zero_length (d : CueDesignGeometry) (xq : Q) (S : CueSectionGeometry) :
  get_section_at_position d xq = Some S -> length S == 0 ->
  radius_at_position d xq = Err ZeroDivisionError.
Proof.
  intros HS Hl. unfold radius_at_position. rewrite HS.
  pose proof (first_containing_contains _ _ _ HS) as Hc.
  unfold contains in Hc. apply andb_true_iff in Hc as [H1 H2].
  apply Qle_bool_iff in H1, H2.
  unfold section_radius_at_position.
  destruct (Qlt_le_dec xq (x (start S))) as [H|_]; [exfalso; apply (Qlt_not_le _ _ H H1)|].
  destruct (Qlt_le_dec (x (end_ S)) xq) as [H|_]; [exfalso; apply (Qlt_not_le _ _ H H2)|].
  apply Qeq_bool_iff in Hl. rewrite Hl. reflexivity.
Qed.

(** A [ZeroDivisionError] at any sample leaves the loop. *)
Lemma profile_loop_zero_division (d : CueDesignGeometry) (is : list Z) (i : Z) :
  In i is -> radius_at_position d (sample_position i) = Err ZeroDivisionError ->
  profile_loop d is = Err ZeroDivisionError.
Proof.
  intros Hin Hz. induction is as [|j is IH]; [destruct Hin|].
  cbn [profile_loop]. destruct Hin as [->|Hin].
  - rewrite Hz. reflexivity.
  - specialize (IH Hin).
    destruct (radius_at_position_cases d (sample_position j)) as [H|[H|[rad H]]]; rewrite H.
    + exact IH.
    + reflexivity.
    + rewrite IH. reflexivity.
Qed.

Definition zero_length_joint : CueSectionGeometry :=
  mkSection "joint" (mkPoint3D 0 10 0) (mkPoint3D 0 10 0).

(** C7 (counterexample): for the design of one zero-length section at 0, the
    sample position 0.0 lies inside the section, yet [radius_at_position]
    divides by the zero length and the [ZeroDivisionError] is not the
    [ValueError] the loop skips: the view produces no samples at all. *)
Lemma C7_zero_length_section_raises :
  total_length (make_design [zero_length_joint]) = 0 /\
  contains zero_length_joint (sample_position 0) = true /\
  profile_points (make_design [zero_length_joint]) = Err ZeroDivisionError.
Proof. vm_compute. repeat split. Qed.

(** C7 (amended): for a design whose sections all have [start.x < end.x],
    the sampling succeeds; for every [i] with [0 <= i <= floor(total_length *
    10)], a position [i/10] inside some section yields the point
    [(i/10, radius_at_position(i/10), 2 * radius_at_position(i/10))] and a
    position outside all sections yields no point; every point produced is of
    that form.  For any design, if such a position [i/10] is answered by a
    zero-length section (the first section in sorted order whose closed
    interval contains it), the sampling fails with [ZeroDivisionError]. *)
Theorem C7_profile_points_sampling :
  (forall l : list CueSectionGeometry,
  Forall (fun s => x (start s) < x (end_ s)) l ->
  exists pts, profile_points (make_design l) = Ok pts /\
    (forall i, (0 <= i <= Qfloor (total_length (make_design l) * 10))%Z ->
       ((exists S, In S l /\ contains S (sample_position i) = true) ->
          exists rad, radius_at_position (make_design l) (sample_position i) = Ok rad /\
                      In (mkProfilePoint (sample_position i) rad (rad * 2)) pts) /\
       ((forall S, In S l -> contains S (sample_position i) = false) ->
          forall rad dia, ~ In (mkProfilePoint (sample_position i) rad dia) pts)) /\
    (forall p, In p pts -> exists i rad,
       p = mkProfilePoint (sample_position i) rad (rad * 2) /\
       radius_at_position (make_design l) (sample_position i) = Ok rad)) /\
  (forall (l : list CueSectionGeometry) (i : Z) (S : CueSectionGeometry),
     (0 <= i <= Qfloor (total_length (make_design l) * 10))%Z ->
     get_section_at_position (make_design l) (sample_position i) = Some S ->
     length S == 0 ->
     profile_points (make_design l) = Err ZeroDivisionError).
Proof.
  split.
  2:{ intros l i S Hi HS Hl. unfold profile_points.
      apply (profile_loop_zero_division _ _ i).
      - apply in_py_range. pose proof (floor_le_py_int (total_length (make_design l) * 10)). lia.
      - apply (radius_at_zero_length _ _ S HS Hl). }
  intros l Hl. set (d := make_design l).
  assert (Hd : Forall (fun s => x (start s) < x (end_ s)) (sections d)).
  { apply Forall_forall. intros s Hs. rewrite Forall_forall in Hl. apply Hl.
    apply (Permutation_in _ (Permutation_sym (make_design_perm l))). exact Hs. }
  assert (Hmem : forall S, In S l <-> In S (sections d)).
  { intros S. split; apply Permutation_in; [apply make_design_perm|].
    apply Permutation_sym, make_design_perm. }
  assert (Hcases : forall xq, radius_at_position d xq = Err ValueError \/
                              exists rad, radius_at_position d xq = Ok rad).
  { intros xq.
    destruct (existsb (fun S => contains S xq) (sections d)) eqn:He.
    - right. apply radius_at_inside; [exact Hd|]. apply existsb_exists in He. exact He.
    - left. apply radius_at_outside. intros S HS.
      destruct (contains S xq) eqn:Hc; [|reflexivity].
      exfalso. assert (existsb (fun S => contains S xq) (sections d) = true) as Ht
        by (apply existsb_exists; exists S; split; assumption).
      congruence. }
  destruct (profile_loop_ok d (py_range (py_int (total_length d * 10) + 1)))
    as [pts [Hpts Hp]]; [intros i _; apply Hcases|].
  exists pts. split; [exact Hpts|]. split.
  - intros i Hi.
    assert (Hr : In i (py_range (py_int (total_length d * 10) + 1))).
    { apply in_py_range. pose proof (floor_le_py_int (total_length d * 10)). lia. }
    split.
    + intros [S [HS Hc]].
      destruct (radius_at_inside d (sample_position i) Hd) as [rad Hrad].
      { exists S. split; [apply Hmem; exact HS|exact Hc]. }
      exists rad. split; [exact Hrad|]. apply Hp. exists i, rad.
      split; [exact Hr|split; [exact Hrad|reflexivity]].
    + intros Hout rad dia Hin. apply Hp in Hin as [j [rad' [_ [Hrad' Heq]]]].
      apply (f_equal pp_x) in Heq. cbn [pp_x] in Heq. rewrite <- Heq in Hrad'.
      rewrite radius_at_outside in Hrad'; [discriminate|].
      intros S HS. apply Hout. apply Hmem. exact HS.
  - intros p Hin. apply Hp in Hin as [i [rad [_ [Hrad ->]]]].
    exists i, rad. split; [reflexivity|exact Hrad].
Qed.

Definition zero_length_joint_2 : CueSectionGeometry :=
  mkSection "joint" (mkPoint3D 2 10 0) (mkPoint3D 2 10 0).

Lemma C7_profile_points_sampling_witness :
  (exists pts, profile_points (make_design [handle_8_18; forearm_1_8]) = Ok pts) /\
  profile_points (make_design [zero_length_joint_2; joint_0_1]) = Err ZeroDivisionError.
Proof.
  split.
  - destruct (proj1 C7_profile_points_sampling [handle_8_18; forearm_1_8]) as [pts [H _]].
    + repeat constructor.
    + exists pts. exact H.
  - apply (proj2 C7_profile_points_sampling _ 20%Z zero_length_joint_2).
    + vm_compute. split; intros H; discriminate H.
    + reflexivity.
    + reflexivity.
Defined.

(** ** Witnesses at concrete inputs *)

Definition handle_14_to_5_2_Q : CueSectionGeometry :=
  mkSection "handle" (mkPoint3D 0 14 0) (mkPoint3D 10 (52 # 10) 0).

Lemma C2_section_radius_interpolation_witness :
  exists rad, section_radius_at_position handle_14_to_5_2_Q 10 = Ok rad /\ rad == 52 # 10.
Proof.
  apply (C2_section_radius_interpolation handle_14_to_5_2_Q). reflexivity.
Defined.

Lemma C3_validate_continuity_issues_witness :
  validate_continuity (make_design [handle_8_18; forearm_1_8]) = [].
Proof.
  apply (proj2 (proj2 C3_validate_continuity_issues)).
  intros p Hp. vm_compute in Hp. destruct Hp as [<-|[]]. split; reflexivity.
Defined.

Definition forearm_record : SectionData :=
  mkSectionData (Some "forearm"%string) (Some 0) (Some 12) (Some 21) (Some 22).
Definition handle_record : SectionData :=
  mkSectionData (Some "handle"%string) (Some 10) (Some 20) (Some 22) (Some 24).
Definition joint_record : SectionData :=
  mkSectionData (Some "joint"%string) (Some 20) (Some 21) (Some 24) (Some 24).

Lemma C5_section_sequence_mismatches_witness :
  validate_section_sequence [joint_record; forearm_record; handle_record]
  = Ok [SequenceMismatch 0 "joint" "forearm"; SequenceMismatch 1 "forearm" "handle";
        SequenceMismatch 2 "handle" "joint"]%string.
Proof.
  apply (proj2 C5_section_sequence_mismatches); reflexivity.
Defined.

Lemma C10_boundary_belongs_to_earlier_section_witness :
  get_section_at_position (make_design [handle_8_18; forearm_1_8]) 8 = Some forearm_1_8.
Proof.
  apply (proj2 C10_boundary_belongs_to_earlier_section
           (make_design [handle_8_18; forearm_1_8]) [] forearm_1_8 handle_8_18 [] 8);
    try reflexivity.
  intros S [].
Defined.

(** * Further properties of the geometry code *)

Lemma qlt_reflect (a b : Q) : reflect (a < b) (qlt a b).
Proof.
  unfold qlt. destruct (Qlt_le_dec a b) as [H|H]; constructor; [exact H|].
  intros H'. apply (Qlt_not_le _ _ H' H).
Qed.

Ltac case_qlt :=
  match goal with
  | |- context [qlt ?a ?b] => destruct (qlt_reflect a b)
  | H : context [qlt ?a ?b] |- _ => destruct (qlt_reflect a b)
  end.

(** ** [CueGeometryValidator.validate_section] *)

Ltac destruct_ifs :=
  repeat match goal with
         | |- context [if ?b then _ else _] => destruct b
         end.

Lemma validate_section_start_issue (sd : SectionData) :
  In StartNotBeforeEnd (validate_section sd)
  <-> qlt (get_or_zero (sd_start_position_in sd)) (get_or_zero (sd_end_position_in sd)) = false.
Proof.
  unfold validate_section; cbv zeta. rewrite !in_app_iff.
  destruct_ifs; cbn [In]; intuition congruence.
Qed.

Lemma validate_section_taper_issue (sd : SectionData) (rate : Q) :
  let start_pos := get_or_zero (sd_start_position_in sd) in
  let end_pos := get_or_zero (sd_end_position_in sd) in
  let start_diameter := get_or_zero (sd_outer_diameter_start_mm sd) in
  let end_diameter := get_or_zero (sd_outer_diameter_end_mm sd) in
  In (TaperRateTooSteep rate) (validate_section sd)
  <-> qlt 0 (end_pos - start_pos) = true
      /\ qlt 2 (Qabs ((end_diameter - start_diameter) / (end_pos - start_pos))) = true
      /\ rate = (end_diameter - start_diameter) / (end_pos - start_pos).
Proof.
  unfold validate_section; cbv zeta. rewrite !in_app_iff.
  destruct_ifs; cbn [In]; intuition congruence.
Qed.

Lemma qlt_sub_pos (a b : Q) : 0 < b - a <-> a < b.
Proof. split; intros H; lra. Qed.

(** The start-order issue is reported exactly when [end_pos <= start_pos]
    (missing keys read as 0), and a taper issue only when [start_pos < end_pos]
    and the rate's magnitude exceeds 2; so the two never come together. *)
Theorem validate_section_order_and_taper (sd : SectionData) :
  let start_pos := get_or_zero (sd_start_position_in sd) in
  let end_pos := get_or_zero (sd_end_position_in sd) in
  (In StartNotBeforeEnd (validate_section sd) <-> end_pos <= start_pos) /\
  (forall rate, In (TaperRateTooSteep rate) (validate_section sd) ->
                start_pos < end_pos /\ 2 < Qabs rate) /\
  ~ (In StartNotBeforeEnd (validate_section sd) /\
     exists rate, In (TaperRateTooSteep rate) (validate_section sd)).
Proof.
  cbv zeta. rewrite validate_section_start_issue.
  assert (Htaper : forall rate, In (TaperRateTooSteep rate) (validate_section sd) ->
            get_or_zero (sd_start_position_in sd) < get_or_zero (sd_end_position_in sd)
            /\ 2 < Qabs rate).
  { intros rate Hr. apply validate_section_taper_issue in Hr. cbv zeta in Hr.
    destruct Hr as [H1 [H2 ->]].
    destruct (qlt_reflect 0 (get_or_zero (sd_end_position_in sd)
                             - get_or_zero (sd_start_position_in sd))) as [Hl|]; [|discriminate].
    case_qlt; [|discriminate]. split; [apply qlt_sub_pos; exact Hl|assumption]. }
  split; [|split; [exact Htaper|]].
  - destruct (qlt_reflect (get_or_zero (sd_start_position_in sd))
                           (get_or_zero (sd_end_position_in sd))) as [H|H].
    + split; [discriminate|]. intros Hle. exfalso. apply (Qlt_not_le _ _ H Hle).
    + split; [intros _; apply Qnot_lt_le; exact H|reflexivity].
  - intros [H1 [rate H2]]. apply Htaper in H2. destruct H2 as [H2 _].
    case_qlt; [discriminate|contradiction].
Qed.

Lemma qlt_irrefl (a : Q) : qlt a a = false.
Proof. destruct (qlt_reflect a a) as [H|]; [exfalso; apply (Qlt_irrefl a H)|reflexivity]. Qed.

(** A record without one of the diameter keys reads that diameter as 0 and
    gets the positive-diameter issue; a record without both position keys
    gets the start-order issue and never a taper issue. *)
Theorem validate_section_missing_keys (sd : SectionData) :
  (sd_outer_diameter_start_mm sd = None \/ sd_outer_diameter_end_mm sd = None ->
   In DiametersNotPositive (validate_section sd)) /\
  (sd_start_position_in sd = None -> sd_end_position_in sd = None ->
   In StartNotBeforeEnd (validate_section sd) /\
   forall rate, ~ In (TaperRateTooSteep rate) (validate_section sd)).
Proof.
  split.
  - intros H. unfold validate_section; cbv zeta. rewrite !in_app_iff. right; right; left.
    destruct H as [H|H]; rewrite H; cbn [get_or_zero]; rewrite qlt_irrefl;
      [|destruct (qlt 0 (get_or_zero (sd_outer_diameter_start_mm sd)))];
      cbn; left; reflexivity.
  - intros Hs He. split.
    + apply validate_section_start_issue. rewrite Hs, He. apply qlt_irrefl.
    + intros rate Hr. apply validate_section_taper_issue in Hr. cbv zeta in Hr.
      rewrite Hs, He in Hr. cbn [get_or_zero] in Hr. destruct Hr as [Hr _].
      destruct (qlt_reflect 0 (0 - 0)) as [H|]; [lra|discriminate].
Qed.

(** ** [CueGeometryValidator.validate_sections_continuity] *)

Definition is_gap_or_overlap (i : record_continuity_issue) : bool :=
  match i with RecordGap _ _ _ | RecordOverlap _ _ => true | RecordDiameterJump _ => false end.

Lemma traverse_err_in {A B : Type} (f : A -> result B) (l : list A) (a : A) (e : exn) :
  In a l -> f a = Err e -> (forall b e', f b = Err e' -> e' = e) -> traverse f l = Err e.
Proof.
  intros Hin Ha Hall. induction l as [|b l IH]; [destruct Hin|].
  cbn [traverse]. destruct Hin as [->|Hin].
  - rewrite Ha. reflexivity.
  - destruct (f b) as [v|e'] eqn:Hb; cbn [bind].
    + rewrite (IH Hin). reflexivity.
    + rewrite (Hall b e' Hb). reflexivity.
Qed.

Lemma traverse_ok_forall2 {A B : Type} (f : A -> result B) (l : list A) (l' : list B) :
  traverse f l = Ok l' -> Forall2 (fun a b => f a = Ok b) l l'.
Proof.
  revert l'. induction l as [|a l IH]; intros l' H; cbn [traverse] in H.
  - injection H as <-. constructor.
  - destruct (f a) as [v|e] eqn:Ha; cbn [bind] in H; [|discriminate].
    destruct (traverse f l) as [vs|e] eqn:Hl; cbn [bind] in H; [|discriminate].
    injection H as <-. constructor; [exact Ha|apply IH; reflexivity].
Qed.

Lemma adjacent_pairs_length {A : Type} (l : list A) :
  List.length (adjacent_pairs l) = (List.length l - 1)%nat.
Proof.
  induction l as [|a l IH]; [reflexivity|].
  destruct l as [|b l]; [reflexivity|].
  change (adjacent_pairs (a :: b :: l)) with ((a, b) :: adjacent_pairs (b :: l)).
  cbn [List.length] in *. rewrite IH. lia.
Qed.

Lemma record_pair_issues_counts (a b : SectionData) (is : list record_continuity_issue) :
  record_pair_issues a b = Ok is ->
  (List.length (filter is_gap_or_overlap is) <= 1 /\
   List.length (filter (fun i => negb (is_gap_or_overlap i)) is) <= 1)%nat.
Proof.
  unfold record_pair_issues.
  destruct (sd_start_position_in b) as [ns|]; cbn [subscript bind]; [|discriminate].
  destruct (sd_end_position_in a) as [ce|]; cbn [subscript bind]; [|discriminate].
  destruct (sd_outer_diameter_end_mm a) as [cd|]; cbn [subscript bind]; [|discriminate].
  destruct (sd_outer_diameter_start_mm b) as [nd|]; cbn [subscript bind]; [|discriminate].
  intros H. injection H as <-. cbv zeta.
  destruct (qlt_reflect (1 # 100) (ns - ce)) as [H1|]; destruct (qlt_reflect (ns - ce) 0) as [H2|];
    [exfalso; apply (Qlt_irrefl 0); apply Qlt_trans with (1 # 100);
     [reflexivity|apply Qlt_trans with (ns - ce); assumption]| | |]; destruct_ifs; cbn; lia.
Qed.

Lemma concat_counts (ls : list (list record_continuity_issue)) (p : record_continuity_issue -> bool) :
  Forall (fun is => List.length (filter p is) <= 1)%nat ls ->
  (List.length (filter p (List.concat ls)) <= List.length ls)%nat.
Proof.
  induction 1 as [|is ls H _ IH]; [cbn; lia|].
  cbn [List.concat List.length]. rewrite filter_app, length_app. lia.
Qed.

(** [validate_sections_continuity] returns no issue for fewer than two
    records; with two or more it raises [KeyError] when a record lacks
    ["start_position_in"]; and when it returns issues, no adjacent pair
    yields both a gap and an overlap: there are at most [n - 1] gap-or-overlap
    issues and at most [n - 1] diameter-jump issues for [n] records. *)
Theorem validate_sections_continuity_edges (l : list SectionData) :
  ((List.length l < 2)%nat -> validate_sections_continuity l = Ok []) /\
  ((2 <= List.length l)%nat -> (exists s, In s l /\ sd_start_position_in s = None) ->
   validate_sections_continuity l = Err KeyError) /\
  (forall issues, validate_sections_continuity l = Ok issues ->
   (List.length (filter is_gap_or_overlap issues) <= List.length l - 1 /\
    List.length (filter (fun i => negb (is_gap_or_overlap i)) issues) <= List.length l - 1)%nat).
Proof.
  unfold validate_sections_continuity. split; [|split].
  - intros H. apply Nat.ltb_lt in H. rewrite H. reflexivity.
  - intros H [s [Hs Hn]]. apply Nat.ltb_ge in H. rewrite H.
    rewrite (traverse_err_in _ l s KeyError Hs); [reflexivity| |].
    + rewrite Hn. reflexivity.
    + intros b e'. destruct (sd_start_position_in b); cbn; congruence.
  - intros issues. destruct (Nat.ltb (List.length l) 2).
    { intros H. injection H as <-. cbn. lia. }
    destruct (traverse _ l) as [keyed|e] eqn:Hk; cbn [bind]; [|discriminate].
    destruct (traverse _ (adjacent_pairs _)) as [per_pair|e] eqn:Hp; cbn [bind];
      [|discriminate].
    intros H. injection H as <-.
    apply traverse_ok_forall2 in Hk, Hp.
    assert (Hlen : List.length per_pair = (List.length l - 1)%nat).
    { rewrite <- (Forall2_length Hp), adjacent_pairs_length, length_map.
      rewrite <- (Permutation_length (sort_by_perm fst keyed)).
      rewrite (Forall2_length Hk). reflexivity. }
    assert (Hall : Forall (fun is => (List.length (filter is_gap_or_overlap is) <= 1 /\
             List.length (filter (fun i => negb (is_gap_or_overlap i)) is) <= 1)%nat) per_pair).
    { clear Hlen. induction Hp as [|p is ps iss Hpi _ IH]; constructor; [|exact IH].
      apply (record_pair_issues_counts (fst p) (snd p)). exact Hpi. }
    split; rewrite <- Hlen; apply concat_counts; eapply Forall_impl; try exact Hall;
      cbv beta; intros is [H1 H2]; assumption.
Qed.

(** ** [CueGeometryValidator.validate_manufacturing_constraints] *)

Lemma nodup_length_le {A : Type} (dec : forall a b : A, {a = b} + {a <> b}) (l : list A) :
  (List.length (nodup dec l) <= List.length l)%nat.
Proof.
  induction l as [|a l IH]; cbn [nodup]; [cbn; lia|].
  destruct (in_dec dec a l); cbn [List.length]; lia.
Qed.

Lemma nodup_length_iff {A : Type} (dec : forall a b : A, {a = b} + {a <> b}) (l : list A) :
  List.length l = List.length (nodup dec l) <-> NoDup l.
Proof.
  induction l as [|a l IH]; cbn [nodup]; [split; [constructor|reflexivity]|].
  rewrite NoDup_cons_iff. destruct (in_dec dec a l) as [Hin|Hin].
  - split; [|intros [H _]; contradiction].
    intros H. exfalso. pose proof (nodup_length_le dec l). cbn [List.length] in H. lia.
  - cbn [List.length]. rewrite <- IH. split; [intros H; split; [exact Hin|lia]|].
    intros [_ H]. lia.
Qed.

Lemma validator_section_issues_shape (atan_degrees : Q -> Q) (s : CueSectionGeometry)
  (i : design_issue) :
  In i (validator_section_issues atan_degrees s) ->
  match i with DTotalTooLong _ | DDuplicateSectionTypes _ => False | _ => True end.
Proof.
  unfold validator_section_issues; cbv zeta. rewrite !in_app_iff.
  destruct_ifs; cbn [In]; intuition (subst; exact I).
Qed.

(** The design-level check reports the total-length issue exactly when the
    total length exceeds 40 (once, with that length), and the duplicate-type
    issue exactly when two sections share a type; that issue lists precisely
    the types occurring more than once. *)
Theorem validator_design_level_issues (atan_degrees : Q -> Q) (d : CueDesignGeometry) :
  let issues := CueGeometryValidator_validate_manufacturing_constraints atan_degrees d in
  let section_types := map section_type (sections d) in
  (forall t, In (DTotalTooLong t) issues <-> 40 < total_length d /\ t = total_length d) /\
  ((exists dups, In (DDuplicateSectionTypes dups) issues) <-> ~ NoDup section_types) /\
  (forall dups ty, In (DDuplicateSectionTypes dups) issues ->
     (In ty dups <-> (1 < count_occ string_dec section_types ty)%nat)).
Proof.
  cbv zeta. unfold CueGeometryValidator_validate_manufacturing_constraints; cbv zeta.
  assert (Hsec : forall i, In i (flat_map (validator_section_issues atan_degrees) (sections d)) ->
            match i with DTotalTooLong _ | DDuplicateSectionTypes _ => False | _ => True end).
  { intros i Hi. apply in_flat_map in Hi as [s [_ Hi]].
    exact (validator_section_issues_shape atan_degrees s i Hi). }
  assert (Hdup : forall dups, In (DDuplicateSectionTypes dups)
      (flat_map (validator_section_issues atan_degrees) (sections d)
       ++ (if qlt 40 (total_length d) then [DTotalTooLong (total_length d)] else [])
       ++ (if Nat.eqb (List.length (map section_type (sections d)))
                      (List.length (nodup string_dec (map section_type (sections d)))) then []
           else [DDuplicateSectionTypes
                   (filter (fun t => Nat.ltb 1 (count_occ string_dec (map section_type (sections d)) t))
                           (map section_type (sections d)))]))
      <-> ~ NoDup (map section_type (sections d)) /\
          dups = filter (fun t => Nat.ltb 1 (count_occ string_dec (map section_type (sections d)) t))
                        (map section_type (sections d))).
  { intros dups. rewrite !in_app_iff, <- (nodup_length_iff string_dec).
    split.
    - intros [H|[H|H]]; [apply Hsec in H; contradiction| |].
      + destruct (qlt 40 (total_length d)); cbn [In] in H; intuition discriminate.
      + destruct (Nat.eqb_spec (List.length (map section_type (sections d)))
                    (List.length (nodup string_dec (map section_type (sections d)))));
          cbn [In] in H; [contradiction|].
        destruct H as [H|[]]. injection H as <-. split; [assumption|reflexivity].
    - intros [Hn ->]. right; right.
      destruct (Nat.eqb_spec (List.length (map section_type (sections d)))
                  (List.length (nodup string_dec (map section_type (sections d)))));
        [contradiction|left; reflexivity]. }
  split; [|split].
  - intros t. rewrite !in_app_iff. split.
    + intros [H|[H|H]]; [apply Hsec in H; contradiction| |].
      * destruct (qlt_reflect 40 (total_length d)); cbn [In] in H; [|contradiction].
        destruct H as [H|[]]. injection H as <-. split; [assumption|reflexivity].
      * destruct (Nat.eqb _ _); cbn [In] in H; intuition discriminate.
    + intros [Hlt ->]. right; left.
      destruct (qlt_reflect 40 (total_length d)); [left; reflexivity|contradiction].
  - split.
    + intros [dups H]. apply Hdup in H. apply H.
    + intros Hn. eexists. apply Hdup. split; [exact Hn|reflexivity].
  - intros dups ty H. apply Hdup in H. destruct H as [_ ->].
    rewrite filter_In, Nat.ltb_lt. split; [intros [_ H]; exact H|].
    intros H. split; [|exact H].
    apply (count_occ_In string_dec). lia.
Qed.

(** ** [ManufacturingTolerances] *)

Lemma taper_value_eq (s : CueSectionGeometry) :
  0 < length s ->
  Qabs (end_radius s - start_radius s) * 2 / length s == 2 * Qabs (taper_rate s).
Proof.
  intros Hl. unfold taper_rate.
  destruct (Qeq_bool (length s) 0) eqn:Hz.
  { apply Qeq_bool_eq in Hz. rewrite Hz in Hl. discriminate. }
  unfold Qdiv. rewrite Qabs_Qmult, Qabs_Qinv, (Qabs_pos (length s)) by (apply Qlt_le_weak; exact Hl).
  ring.
Qed.

(** [check_diameter_tolerance] flags a section exactly when its length is
    positive and twice its [taper_rate] exceeds 1 in magnitude, with value
    [2 * |taper_rate|]; it only reports excessive tapers, and a section of
    length 0 or less is never flagged. *)
Theorem check_diameter_tolerance_flags (d : CueDesignGeometry) :
  (forall i, In i (check_diameter_tolerance d) ->
     exists s v, i = ExcessiveTaper (section_type s) v /\ In s (sections d) /\
       0 < length s /\ v == 2 * Qabs (taper_rate s) /\ 1 < v) /\
  (forall s, In s (sections d) -> 0 < length s -> 1 < 2 * Qabs (taper_rate s) ->
     exists v, In (ExcessiveTaper (section_type s) v) (check_diameter_tolerance d) /\
       v == 2 * Qabs (taper_rate s)).
Proof.
  unfold check_diameter_tolerance, section_diameter_tolerance. split.
  - intros i Hi. apply in_flat_map in Hi as [s [Hs Hi]]. cbv zeta in Hi.
    destruct (qlt_reflect 0 (length s)) as [Hl|]; [|destruct Hi].
    destruct (qlt_reflect 1 (Qabs (end_radius s - start_radius s) * 2 / length s)) as [Hv|];
      [|destruct Hi].
    destruct Hi as [<-|[]]. do 2 eexists. split; [reflexivity|].
    split; [exact Hs|]. split; [exact Hl|]. split; [apply taper_value_eq; exact Hl|exact Hv].
  - intros s Hs Hl Hv. eexists. split.
    + apply in_flat_map. exists s. split; [exact Hs|]. cbv zeta.
      destruct (qlt_reflect 0 (length s)) as [_|]; [|contradiction].
      destruct (qlt_reflect 1 (Qabs (end_radius s - start_radius s) * 2 / length s)) as [_|Hn].
      * left; reflexivity.
      * exfalso. apply Hn. rewrite taper_value_eq by exact Hl. exact Hv.
    + apply taper_value_eq. exact Hl.
Qed.

Definition radius_step_exceeds (tol : Q) (p : CueSectionGeometry * CueSectionGeometry) : bool :=
  qlt tol (Qabs (end_radius (fst p) - start_radius (snd p))).

Lemma transition_issues_count (a b : CueSectionGeometry) :
  List.length (transition_issues a b)
  = if radius_step_exceeds (1 # 20) (a, b) then 1%nat else 0%nat.
Proof.
  unfold transition_issues, radius_step_exceeds, DIAMETER_TOLERANCE; cbv zeta; cbn [fst snd].
  assert (Heq : Qabs (end_radius a * 2 - start_radius b * 2)
                == 2 * Qabs (end_radius a - start_radius b)).
  { setoid_replace (end_radius a * 2 - start_radius b * 2)
      with (2 * (end_radius a - start_radius b)) by ring.
    rewrite Qabs_Qmult. reflexivity. }
  destruct (qlt_reflect ((5 # 100) * 2) (Qabs (end_radius a * 2 - start_radius b * 2))) as [H|H];
  destruct (qlt_reflect (1 # 20) (Qabs (end_radius a - start_radius b))) as [H'|H'];
    try reflexivity; exfalso; rewrite Heq in H; lra.
Qed.

Lemma filter_length_mono {A : Type} (f g : A -> bool) (l : list A) :
  (forall a, f a = true -> g a = true) ->
  (List.length (filter f l) <= List.length (filter g l))%nat.
Proof.
  intros H. induction l as [|a l IH]; cbn; [lia|].
  destruct (f a) eqn:Hf; [rewrite (H a Hf); cbn; lia|].
  destruct (g a); cbn; lia.
Qed.

(** [check_transition_smoothness] flags an adjacent pair of sections exactly
    when the radius step between them exceeds 0.05 mm (a diameter step over
    0.1 mm); so it flags at least as many transitions as [validate_continuity]
    reports radius jumps (those exceed 0.1 mm). *)
Theorem transition_smoothness_covers_radius_jumps (d : CueDesignGeometry) :
  List.length (check_transition_smoothness d)
  = List.length (filter (radius_step_exceeds (1 # 20)) (adjacent_pairs (sections d))) /\
  (List.length (filter is_radius_jump (validate_continuity d))
   <= List.length (check_transition_smoothness d))%nat.
Proof.
  assert (Hc : List.length (check_transition_smoothness d)
               = List.length (filter (radius_step_exceeds (1 # 20)) (adjacent_pairs (sections d)))).
  { unfold check_transition_smoothness.
    destruct (Nat.ltb_spec (List.length (sections d)) 2) as [H|_].
    - destruct (sections d) as [|a [|b l]]; [reflexivity|reflexivity|cbn in H; lia].
    - induction (adjacent_pairs (sections d)) as [|[a b] ps IH]; [reflexivity|].
      cbn [flat_map filter fst snd]. rewrite length_app, IH, transition_issues_count.
      destruct (radius_step_exceeds (1 # 20) (a, b)); reflexivity. }
  split; [exact Hc|]. rewrite Hc, validate_continuity_pairs, count_radius_jumps.
  apply filter_length_mono. intros [a b].
  unfold radius_jump_exceeds, radius_step_exceeds, radius_jump_tolerance; cbn [fst snd].
  destruct (Qlt_le_dec (1 # 10) (Qabs (end_radius a - start_radius b))) as [H|]; [|discriminate].
  intros _. destruct (qlt_reflect (1 # 20) (Qabs (end_radius a - start_radius b))) as [|Hn];
    [reflexivity|exfalso; apply Hn; lra].
Qed.

(** ** [InlayPatternValidator] *)

Lemma repeat_count_invalid_false (v : PyVal) :
  repeat_count_invalid v = false <->
  (exists z, v = PInt z /\ (1 <= z <= 24)%Z) \/ v = PBool true.
Proof.
  destruct v as [|b|z|q|s|l|kv]; cbn [repeat_count_invalid].
  - split; [discriminate|intros [[z [H _]]|H]; discriminate].
  - destruct b; cbn; split; try discriminate; auto.
    intros [[z [H _]]|H]; discriminate.
  - rewrite orb_false_iff, !Z.ltb_ge. split.
    + intros [H1 H2]. left. exists z. split; [reflexivity|lia].
    + intros [[z' [H Hz]]|H]; [injection H as <-; lia|discriminate].
  - split; [discriminate|intros [[z [H _]]|H]; discriminate].
  - split; [discriminate|intros [[z [H _]]|H]; discriminate].
  - split; [discriminate|intros [[z [H _]]|H]; discriminate].
  - split; [discriminate|intros [[z [H _]]|H]; discriminate].
Qed.

(** Which constructors each nested validator can produce. *)
Definition geometric_issue (i : inlay_issue) : bool :=
  match i with
  | InvalidGeometryType _ | DimensionsNotObject | OrientationNotObject
  | PositioningNotObject => true
  | _ => false
  end.

Definition material_issue (i : inlay_issue) : bool :=
  match i with
  | MissingMaterialField _ | InvalidBaseMaterial _ | InvalidInlayMaterial _
  | InvalidContrastLevel _ | InvalidFinishType _ => true
  | _ => false
  end.

Lemma validate_geometric_definition_shape (g : PyVal) (is : list inlay_issue) :
  validate_geometric_definition g = Ok is -> Forall (fun i => geometric_issue i = true) is.
Proof.
  unfold validate_geometric_definition. destruct g; cbn [as_dict bind]; try discriminate.
  intros H. injection H as <-. cbv zeta. unfold check_if.
  destruct_ifs; cbn [app]; repeat constructor.
Qed.

Lemma validate_material_assignment_shape (m : PyVal) (is : list inlay_issue) :
  validate_material_assignment m = Ok is -> Forall (fun i => material_issue i = true) is.
Proof.
  unfold validate_material_assignment. destruct m; cbn [as_dict bind]; try discriminate.
  intros H. injection H as <-. cbv zeta. cbn [flat_map]. unfold check_if.
  destruct_ifs; cbn [app]; repeat constructor.
Qed.

Lemma in_check_if (b : bool) (i j : inlay_issue) :
  In j (check_if b i) <-> b = true /\ j = i.
Proof. unfold check_if. destruct b; cbn [In]; intuition congruence. Qed.

(** The decomposition of [validate_pattern] when it returns. *)
Lemma validate_pattern_ok (pattern_data : PyDict) (issues : list inlay_issue) :
  validate_pattern pattern_data = Ok issues ->
  exists geom_issues material_issues,
    Forall (fun i => geometric_issue i = true) geom_issues /\
    Forall (fun i => material_issue i = true) material_issues /\
    (truthy (dict_get "material_assignment" pattern_data) = true ->
     validate_material_assignment (dict_get "material_assignment" pattern_data)
     = Ok material_issues) /\
    (truthy (dict_get "material_assignment" pattern_data) = false -> material_issues = []) /\
    (truthy (dict_get "geometric_definition" pattern_data) = true ->
     validate_geometric_definition (dict_get "geometric_definition" pattern_data)
     = Ok geom_issues) /\
    issues =
      flat_map (fun field =>
                  check_if (negb (dict_in field pattern_data)) (MissingRequiredField field))
               ["pattern_id"; "pattern_category"; "pattern_style"]%string
      ++ check_if (truthy (dict_get "pattern_category" pattern_data)
                   && negb (in_str_list (dict_get "pattern_category" pattern_data) VALID_CATEGORIES))
                  (InvalidPatternCategory (dict_get "pattern_category" pattern_data))
      ++ check_if (truthy (dict_get "pattern_style" pattern_data)
                   && negb (in_str_list (dict_get "pattern_style" pattern_data) VALID_STYLES))
                  (InvalidPatternStyle (dict_get "pattern_style" pattern_data))
      ++ check_if (repeat_count_invalid
                     (if dict_in "repeat_count" pattern_data
                      then dict_get "repeat_count" pattern_data else PInt 1))
                  (InvalidRepeatCount
                     (if dict_in "repeat_count" pattern_data
                      then dict_get "repeat_count" pattern_data else PInt 1))
      ++ geom_issues ++ material_issues.
Proof.
  unfold validate_pattern; cbv zeta.
  destruct (truthy (dict_get "geometric_definition" pattern_data)) eqn:Hg.
  - destruct (validate_geometric_definition _) as [gi|e] eqn:Hgi; cbn [bind]; [|discriminate].
    destruct (truthy (dict_get "material_assignment" pattern_data)) eqn:Hm.
    + destruct (validate_material_assignment _) as [mi|e] eqn:Hmi; cbn [bind]; [|discriminate].
      intros H. injection H as <-. exists gi, mi.
      split; [eapply validate_geometric_definition_shape; exact Hgi|].
      split; [eapply validate_material_assignment_shape; exact Hmi|].
      repeat split; intros; try reflexivity; try assumption; discriminate.
    + cbn [bind]. intros H. injection H as <-. exists gi, [].
      split; [eapply validate_geometric_definition_shape; exact Hgi|].
      split; [constructor|].
      repeat split; intros; try reflexivity; try assumption; discriminate.
  - cbn [bind].
    destruct (truthy (dict_get "material_assignment" pattern_data)) eqn:Hm.
    + destruct (validate_material_assignment _) as [mi|e] eqn:Hmi; cbn [bind]; [|discriminate].
      intros H. injection H as <-. exists [], mi.
      split; [constructor|].
      split; [eapply validate_material_assignment_shape; exact Hmi|].
      repeat split; intros; try reflexivity; try assumption; discriminate.
    + cbn [bind]. intros H. injection H as <-. exists [], [].
      repeat split; intros; try constructor; try reflexivity; discriminate.
Qed.

(** When [validate_pattern] returns, it reports a repeat count exactly when
    the value of ["repeat_count"] (1 when the key is absent) is neither an
    int in 1..24 nor [True]; it then reports that value. *)
Theorem validate_pattern_repeat_count (pattern_data : PyDict) (issues : list inlay_issue) :
  validate_pattern pattern_data = Ok issues ->
  forall v, In (InvalidRepeatCount v) issues <->
    v = (if dict_in "repeat_count" pattern_data
         then dict_get "repeat_count" pattern_data else PInt 1) /\
    ~ ((exists z, v = PInt z /\ (1 <= z <= 24)%Z) \/ v = PBool true).
Proof.
  intros H v. apply validate_pattern_ok in H.
  destruct H as [gi [mi [Hg [Hm [_ [_ [_ ->]]]]]]].
  rewrite <- repeat_count_invalid_false. rewrite Forall_forall in Hg, Hm.
  set (rc := if dict_in "repeat_count" pattern_data
             then dict_get "repeat_count" pattern_data else PInt 1).
  split.
  - intros H.
    apply in_app_iff in H as [H|H].
    { apply in_flat_map in H as [f [_ H]]. apply in_check_if in H as [_ H]. discriminate. }
    apply in_app_iff in H as [H|H]; [apply in_check_if in H as [_ H]; discriminate|].
    apply in_app_iff in H as [H|H]; [apply in_check_if in H as [_ H]; discriminate|].
    apply in_app_iff in H as [H|H].
    { apply in_check_if in H as [Hr H]. injection H as ->.
      split; [reflexivity|rewrite Hr; discriminate]. }
    apply in_app_iff in H as [H|H]; [apply Hg in H|apply Hm in H]; discriminate.
  - intros [-> Hr]. rewrite !in_app_iff. right; right; right; left.
    apply in_check_if. split; [|reflexivity].
    destruct (repeat_count_invalid rc); [reflexivity|contradiction].
Qed.

(** A ["material_assignment"] dict is checked only when it is non-empty:
    then a missing-material-field issue is reported for each of
    ["base_material"] and ["inlay_material"] absent from it, and for no other
    field (as long as ["geometric_definition"] is falsy or a dict, so that
    the pattern's check returns). *)
Theorem validate_pattern_material_fields (pattern_data : PyDict) (m : PyDict) :
  dict_get "material_assignment" pattern_data = PDict m ->
  truthy (dict_get "geometric_definition" pattern_data) = false
  \/ is_dict (dict_get "geometric_definition" pattern_data) = true ->
  exists issues, validate_pattern pattern_data = Ok issues /\
    forall f, In (MissingMaterialField f) issues <->
      m <> [] /\ In f ["base_material"; "inlay_material"]%string /\ dict_in f m = false.
Proof.
  intros Hm Hg.
  assert (Hok : exists issues, validate_pattern pattern_data = Ok issues).
  { unfold validate_pattern; cbv zeta.
    destruct Hg as [Hg|Hg].
    - rewrite Hg. cbn [bind]. rewrite Hm.
      destruct (truthy (PDict m)); cbn [validate_material_assignment as_dict bind];
        eexists; reflexivity.
    - destruct (dict_get "geometric_definition" pattern_data); try discriminate.
      destruct (truthy (PDict kv)); cbn [validate_geometric_definition as_dict bind]; rewrite Hm;
        destruct (truthy (PDict m)); cbn [validate_material_assignment as_dict bind];
        eexists; reflexivity. }
  destruct Hok as [issues Hissues]. exists issues. split; [exact Hissues|].
  intros f. apply validate_pattern_ok in Hissues.
  destruct Hissues as [gi [mi [Hgi [Hmi [Hmt [Hmf [_ ->]]]]]]].
  rewrite Forall_forall in Hgi. rewrite Hm in Hmt, Hmf.
  assert (Hpre : forall L, (In (MissingMaterialField f)
     (flat_map (fun field =>
                  check_if (negb (dict_in field pattern_data)) (MissingRequiredField field))
               ["pattern_id"; "pattern_category"; "pattern_style"]%string
      ++ check_if (truthy (dict_get "pattern_category" pattern_data)
                   && negb (in_str_list (dict_get "pattern_category" pattern_data) VALID_CATEGORIES))
                  (InvalidPatternCategory (dict_get "pattern_category" pattern_data))
      ++ check_if (truthy (dict_get "pattern_style" pattern_data)
                   && negb (in_str_list (dict_get "pattern_style" pattern_data) VALID_STYLES))
                  (InvalidPatternStyle (dict_get "pattern_style" pattern_data))
      ++ check_if (repeat_count_invalid
                     (if dict_in "repeat_count" pattern_data
                      then dict_get "repeat_count" pattern_data else PInt 1))
                  (InvalidRepeatCount
                     (if dict_in "repeat_count" pattern_data
                      then dict_get "repeat_count" pattern_data else PInt 1))
      ++ gi ++ L) <-> In (MissingMaterialField f) L)).
  { intros L. rewrite !in_app_iff. split; [|intros H; right; right; right; right; right; exact H].
    intros [H|[H|[H|[H|[H|H]]]]]; try exact H.
    - apply in_flat_map in H as [g [_ H]]. apply in_check_if in H as [_ H]. discriminate.
    - apply in_check_if in H as [_ H]. discriminate.
    - apply in_check_if in H as [_ H]. discriminate.
    - apply in_check_if in H as [_ H]. discriminate.
    - apply Hgi in H. discriminate. }
  rewrite Hpre. clear Hpre.
  destruct m as [|kv m'].
  - rewrite (Hmf eq_refl). cbn [In]. split; [contradiction|intros [H _]; contradiction].
  - specialize (Hmt eq_refl). unfold validate_material_assignment in Hmt.
    cbn [as_dict bind] in Hmt. injection Hmt as <-. cbv zeta.
    rewrite !in_app_iff, !in_check_if. cbn [In]. split.
    + intros [[[Hd H]|[[Hd H]|[]]]|[[_ H]|[[_ H]|[[_ H]|[_ H]]]]]; try discriminate.
      all: injection H as Hf; subst f.
      all: split; [discriminate|split; [cbn; tauto|apply negb_true_iff; exact Hd]].
    + intros [_ [Hf Hd]]. left. cbn [In] in Hf.
      destruct Hf as [<-|[<-|[]]]; [left|right; left]; rewrite Hd; split; reflexivity.
Qed.

(** A truthy ["geometric_definition"] that is not a dict makes the pattern's
    check raise [AttributeError]; a non-empty dict without ["geometry_type"]
    gets an invalid-geometry-type issue for [None] (as long as
    ["material_assignment"] is falsy or a dict, so that the check returns). *)
Theorem validate_pattern_geometric_definition (pattern_data : PyDict) :
  let g := dict_get "geometric_definition" pattern_data in
  let m := dict_get "material_assignment" pattern_data in
  (truthy g = true -> is_dict g = false -> validate_pattern pattern_data = Err AttributeError) /\
  (forall kv, g = PDict kv -> kv <> [] -> dict_in "geometry_type" kv = false ->
     truthy m = false \/ is_dict m = true ->
     exists issues, validate_pattern pattern_data = Ok issues /\
       In (InvalidGeometryType PNone) issues).
Proof.
  cbv zeta. split.
  - intros Ht Hd. unfold validate_pattern; cbv zeta. rewrite Ht.
    destruct (dict_get "geometric_definition" pattern_data); try discriminate; reflexivity.
  - intros kv Hg Hne Hty Hm.
    assert (Hok : exists issues, validate_pattern pattern_data = Ok issues).
    { unfold validate_pattern; cbv zeta. rewrite Hg.
      destruct kv as [|p kv']; [contradiction|].
      cbn [truthy validate_geometric_definition as_dict bind].
      destruct Hm as [Hm|Hm]; [rewrite Hm; cbn [bind]; eexists; reflexivity|].
      destruct (dict_get "material_assignment" pattern_data); try discriminate.
      destruct (truthy (PDict kv)); cbn [validate_material_assignment as_dict bind];
        eexists; reflexivity. }
    destruct Hok as [issues Hissues]. exists issues. split; [exact Hissues|].
    apply validate_pattern_ok in Hissues.
    destruct Hissues as [gi [mi [_ [_ [_ [_ [Hgt ->]]]]]]].
    rewrite Hg in Hgt. destruct kv as [|p kv']; [contradiction|].
    specialize (Hgt eq_refl). unfold validate_geometric_definition in Hgt.
    cbn [as_dict bind] in Hgt. injection Hgt as <-. cbv zeta.
    assert (Hnone : dict_get "geometry_type" (p :: kv') = PNone).
    { unfold dict_in in Hty. unfold dict_get.
      destruct (assoc "geometry_type" (p :: kv')); [discriminate|reflexivity]. }
    rewrite Hnone.
    rewrite !in_app_iff. do 4 right. left. left. apply in_check_if. split; reflexivity.
Qed.

(** ** [CueDesignGeometry.sections_by_type] *)

Lemma assoc_add_to_group (k ty : string) (s : CueSectionGeometry)
  (groups : list (string * list CueSectionGeometry)) :
  assoc k (add_to_group ty s groups)
  = if String.eqb k ty
    then Some (match assoc k groups with Some ss => ss ++ [s] | None => [s] end)
    else assoc k groups.
Proof.
  induction groups as [|[k' ss] groups IH]; cbn [add_to_group assoc].
  - destruct (String.eqb k ty); reflexivity.
  - destruct (String.eqb_spec ty k') as [->|Hne]; cbn [assoc].
    + destruct (String.eqb k k'); reflexivity.
    + rewrite IH. destruct (String.eqb_spec k k') as [->|Hk]; [|reflexivity].
      destruct (String.eqb_spec k' ty); [congruence|reflexivity].
Qed.

Lemma keys_add_to_group (ty : string) (s : CueSectionGeometry)
  (groups : list (string * list CueSectionGeometry)) :
  map fst (add_to_group ty s groups)
  = if existsb (String.eqb ty) (map fst groups) then map fst groups
    else map fst groups ++ [ty].
Proof.
  induction groups as [|[k' ss] groups IH]; [reflexivity|].
  cbn [add_to_group map fst existsb].
  destruct (String.eqb ty k'); [reflexivity|]. cbn [orb map fst]. rewrite IH.
  destruct (existsb _ _); reflexivity.
Qed.

Lemma nodup_keys_add_to_group (ty : string) (s : CueSectionGeometry)
  (groups : list (string * list CueSectionGeometry)) :
  NoDup (map fst groups) -> NoDup (map fst (add_to_group ty s groups)).
Proof.
  intros H. rewrite keys_add_to_group.
  destruct (existsb (String.eqb ty) (map fst groups)) eqn:He; [exact H|].
  apply NoDup_app; [exact H|constructor; [intros []|constructor]|].
  intros k Hk [->|[]]. assert (Hf : existsb (String.eqb k) (map fst groups) = true).
  { apply existsb_exists. exists k. split; [exact Hk|apply String.eqb_refl]. }
  congruence.
Qed.

Lemma sections_by_type_fold (l : list CueSectionGeometry)
  (groups : list (string * list CueSectionGeometry)) (k : string) :
  assoc k (fold_left (fun result s => add_to_group (section_type s) s result) l groups)
  = match assoc k groups with
    | Some ss => Some (ss ++ filter (fun s => String.eqb k (section_type s)) l)
    | None =>
        if existsb (fun s => String.eqb k (section_type s)) l
        then Some (filter (fun s => String.eqb k (section_type s)) l) else None
    end.
Proof.
  revert groups. induction l as [|s l IH]; intros groups; cbn [fold_left filter existsb].
  - destruct (assoc k groups); [rewrite app_nil_r|]; reflexivity.
  - rewrite IH, assoc_add_to_group.
    destruct (String.eqb k (section_type s)); cbn [orb].
    + destruct (assoc k groups); rewrite <- ?app_assoc; reflexivity.
    + reflexivity.
Qed.

(** Looking a type up in [sections_by_type] gives the sections of that type
    in design order, and a type no section has is absent; each type is a key
    once. *)
Theorem sections_by_type_lookup (d : CueDesignGeometry) :
  NoDup (map fst (sections_by_type d)) /\
  forall k, assoc k (sections_by_type d)
            = if existsb (fun s => String.eqb k (section_type s)) (sections d)
              then Some (filter (fun s => String.eqb k (section_type s)) (sections d))
              else None.
Proof.
  unfold sections_by_type. split.
  - assert (Hgen : forall l groups, NoDup (map fst groups) ->
              NoDup (map fst (fold_left (fun result s => add_to_group (section_type s) s result)
                                        l groups))).
    { induction l as [|s l IH]; intros groups H; [exact H|].
      apply IH. apply nodup_keys_add_to_group. exact H. }
    apply Hgen. constructor.
  - intros k. rewrite sections_by_type_fold. reflexivity.
Qed.

(** ** [GeometryOperations.calculate_centerline] *)

Definition abutting (l : list CueSectionGeometry) : Prop :=
  Forall (fun p => x (end_ (fst p)) == x (start (snd p))) (adjacent_pairs l).

Lemma dedupe_chain (prev : CueSectionGeometry) (l : list CueSectionGeometry) :
  abutting (prev :: l) ->
  Forall (fun s => ~ x (end_ s) == x (start s)) l ->
  dedupe_from (x (end_ prev), 0)
    (flat_map (fun s => [(x (start s), 0); (x (end_ s), 0)]) l)
  = map (fun s => (x (end_ s), 0)) l.
Proof.
  revert prev. induction l as [|s l IH]; intros prev Hab Hnd; [reflexivity|].
  unfold abutting in Hab. cbn [adjacent_pairs] in Hab. inversion Hab as [|? ? Hps Hrest]; subst.
  inversion Hnd as [|? ? Hs Hnd']; subst. cbn [fst snd] in Hps.
  cbn [flat_map app dedupe_from].
  assert (H1 : point_eqb (x (start s), 0) (x (end_ prev), 0) = true).
  { unfold point_eqb; cbn [fst snd]. apply andb_true_intro.
    split; apply Qeq_bool_iff; [symmetry; exact Hps|reflexivity]. }
  assert (H2 : point_eqb (x (end_ s), 0) (x (start s), 0) = false).
  { unfold point_eqb; cbn [fst snd]. destruct (Qeq_bool (x (end_ s)) (x (start s))) eqn:He;
      [|reflexivity]. apply Qeq_bool_iff in He. contradiction. }
  rewrite H1, H2. cbn [app map]. f_equal. apply IH; [exact Hrest|exact Hnd'].
Qed.

(** For a design whose sections abut ([end.x] of each equals [start.x] of
    the next) and have non-zero length, the centerline runs through the
    first start and then every section's end, each point once. *)
Theorem centerline_abutting (d : CueDesignGeometry) (first : CueSectionGeometry)
  (rest : list CueSectionGeometry) :
  sections d = first :: rest ->
  abutting (sections d) ->
  Forall (fun s => ~ x (end_ s) == x (start s)) (sections d) ->
  calculate_centerline d = (x (start first), 0) :: map (fun s => (x (end_ s), 0)) (sections d).
Proof.
  intros Hd Hab Hnd. unfold calculate_centerline, centerline_points. rewrite Hd in *.
  cbn [flat_map app]. f_equal. cbn [dedupe_from map].
  inversion Hnd as [|? ? Hs Hnd']; subst.
  assert (H2 : point_eqb (x (end_ first), 0) (x (start first), 0) = false).
  { unfold point_eqb; cbn [fst snd].
    destruct (Qeq_bool (x (end_ first)) (x (start first))) eqn:He; [|reflexivity].
    apply Qeq_bool_iff in He. contradiction. }
  rewrite H2. cbn [app]. f_equal. apply dedupe_chain; [exact Hab|exact Hnd'].
Qed.

(** ** Witnesses of the further properties *)

Definition sample_butt : CueSectionGeometry :=
  mkSection "butt" (mkPoint3D 0 15 0) (mkPoint3D 10 14 0).
Definition sample_handle : CueSectionGeometry :=
  mkSection "handle" (mkPoint3D 10 14 0) (mkPoint3D 28 13 0).
Definition sample_design : CueDesignGeometry := make_design [sample_handle; sample_butt].

Definition sample_pattern : PyDict :=
  [("pattern_id", PStr "P-1"); ("pattern_category", PStr "dot");
   ("pattern_style", PStr "single_dot"); ("repeat_count", PInt 30);
   ("material_assignment", PDict [("contrast_level", PStr "high")])]%string.

Lemma validate_pattern_repeat_count_witness :
  exists issues, validate_pattern sample_pattern = Ok issues /\
                 In (InvalidRepeatCount (PInt 30)) issues.
Proof.
  eexists. split; [reflexivity|].
  apply (validate_pattern_repeat_count sample_pattern _ eq_refl). split; [reflexivity|].
  intros [[z [H Hz]]|H]; [injection H as <-; lia|discriminate].
Defined.

Lemma validate_pattern_material_fields_witness :
  exists issues, validate_pattern sample_pattern = Ok issues /\
                 In (MissingMaterialField "base_material") issues.
Proof.
  destruct (validate_pattern_material_fields sample_pattern [("contrast_level", PStr "high")]%string
              eq_refl (or_introl eq_refl)) as [issues [H1 H2]].
  exists issues. split; [exact H1|]. apply H2.
  split; [discriminate|split; [left; reflexivity|reflexivity]].
Defined.

Lemma centerline_abutting_witness :
  calculate_centerline sample_design = [(0, 0); (10, 0); (28, 0)].
Proof.
  rewrite (centerline_abutting sample_design sample_butt [sample_handle] eq_refl).
  - reflexivity.
  - repeat constructor.
  - repeat constructor; intros H; vm_compute in H; discriminate H.
Defined.

(** ** The two manufacturing checks *)

Lemma section_checks_agree (atan_degrees : Q -> Q) (s : CueSectionGeometry) :
  (forall ty a, In (TaperTooSteep ty a) (section_manufacturing_issues atan_degrees s)
                <-> In (DTaperTooSteep ty a) (validator_section_issues atan_degrees s)) /\
  (forall ty m, In (RadiusTooSmall ty m) (section_manufacturing_issues atan_degrees s)
                <-> In (DRadiusTooSmall ty m) (validator_section_issues atan_degrees s)) /\
  (forall ty m, In (RadiusTooLarge ty m) (section_manufacturing_issues atan_degrees s)
                <-> In (DRadiusTooLarge ty m) (validator_section_issues atan_degrees s)).
Proof.
  unfold section_manufacturing_issues, validator_section_issues, qlt; cbv zeta.
  repeat match goal with |- context [Qlt_le_dec ?a ?b] => destruct (Qlt_le_dec a b) end;
    cbn [app In]; repeat split; intros; intuition congruence.
Qed.

(** [CueDesignGeometry.validate_manufacturing_constraints] and
    [CueGeometryValidator.validate_manufacturing_constraints] agree on the
    checks they share: a design gets a taper-angle, a too-small-radius or a
    too-large-radius issue (with the same section type and value) from one
    exactly when it gets it from the other. *)
Theorem manufacturing_checks_agree (atan_degrees : Q -> Q) (d : CueDesignGeometry) :
  let core_issues := validate_manufacturing_constraints atan_degrees d in
  let validator_issues := CueGeometryValidator_validate_manufacturing_constraints atan_degrees d in
  (forall ty a, In (TaperTooSteep ty a) core_issues <-> In (DTaperTooSteep ty a) validator_issues) /\
  (forall ty m, In (RadiusTooSmall ty m) core_issues <-> In (DRadiusTooSmall ty m) validator_issues) /\
  (forall ty m, In (RadiusTooLarge ty m) core_issues <-> In (DRadiusTooLarge ty m) validator_issues).
Proof.
  cbv zeta. unfold validate_manufacturing_constraints,
    CueGeometryValidator_validate_manufacturing_constraints; cbv zeta.
  assert (Htail : forall i, In i ((if qlt 40 (total_length d)
                                   then [DTotalTooLong (total_length d)] else [])
      ++ (if Nat.eqb (List.length (map section_type (sections d)))
                     (List.length (nodup string_dec (map section_type (sections d)))) then []
          else [DDuplicateSectionTypes
                  (filter (fun t => Nat.ltb 1 (count_occ string_dec (map section_type (sections d)) t))
                          (map section_type (sections d)))])) ->
      match i with DTotalTooLong _ | DDuplicateSectionTypes _ => True | _ => False end).
  { intros i Hi. apply in_app_iff in Hi.
    destruct (qlt 40 (total_length d)); destruct (Nat.eqb _ _); cbn [In] in Hi;
      intuition (subst; exact I). }
  repeat split; intros Hin.
  all: try (apply in_app_iff in Hin; destruct Hin as [Hin|Hin]; [|apply Htail in Hin; contradiction]).
  all: try apply in_app_iff; try left.
  all: apply in_flat_map in Hin as [s [Hs Hin]]; apply in_flat_map; exists s; split; [exact Hs|].
  all: apply (section_checks_agree atan_degrees s); exact Hin.
Qed.
